(** * The authenticated HTTP client of the admin panel

    A shallow embedding of [src/lib/secureAxios.ts] (token holder, request
    decorator, refresh coordinator, step-up redirector), of
    [src/store/authStore.ts] (the zustand store) and of the bootstrap effect
    of [src/providers/AuthProvider.tsx], with [src/lib/deviceInfo.ts] and
    the screens that use them: the guard and the side bar of
    [src/app/(god)/god/layout.tsx], [src/components/auth/LogoutButton.tsx]
    and [src/components/auth/LoginForm.tsx].

    JavaScript is single threaded: a handler runs without interruption up to
    its next [await].  The response handler is therefore cut at its only
    [await] into a synchronous first part ([onRejected]) and the two
    continuations of the refresh call ([onRefreshFulfilled],
    [onRefreshRejected]).  The module-level variables of the source are the
    fields of one record that is passed through every function. *)

From Stdlib Require Import ZArith Bool Ascii.
From stdpp Require Import base option list strings gmap.

Set Warnings "-register-all".
Local Open Scope string_scope.

(** ** JavaScript values, as far as the client looks at them *)

(** A response body has the TypeScript type [unknown]. *)
Inductive JsValue : Type :=
| JUndefined
| JNull
| JBool (b : bool)
| JNumber (z : Z)
| JString (s : string)
| JArray (items : list JsValue)
| JObject (props : list (string * JsValue)).

(** [typeof v === 'object'] *)
Definition typeof_object (v : JsValue) : bool :=
  match v with
  | JNull | JArray _ | JObject _ => true
  | _ => false
  end.

(** [v !== null] *)
Definition not_null (v : JsValue) : bool :=
  match v with
  | JNull => false
  | _ => true
  end.

(** Truthiness of a value in a condition. *)
Definition truthy (v : JsValue) : bool :=
  match v with
  | JUndefined | JNull => false
  | JBool b => b
  | JNumber z => negb (z =? 0)%Z
  | JString s => negb (String.eqb s "")
  | JArray _ | JObject _ => true
  end.

Fixpoint assoc (k : string) (ps : list (string * JsValue)) : option JsValue :=
  match ps with
  | [] => None
  | (k', v) :: ps' => if String.eqb k k' then Some v else assoc k ps'
  end.

(** Property read [v.k]; only used on values that passed the object test. *)
Definition getProp (v : JsValue) (k : string) : JsValue :=
  match v with
  | JObject ps => default JUndefined (assoc k ps)
  | _ => JUndefined
  end.

(** Truthiness of a [string | null] or [string | undefined] variable:
    null, undefined and the empty string are falsy. *)
Definition present (o : option string) : bool :=
  match o with
  | Some s => negb (String.eqb s "")
  | None => false
  end.

(** [s.includes(frag)] *)
Fixpoint includes (s frag : string) : bool :=
  String.prefix frag s ||
  match s with
  | EmptyString => false
  | String _ s' => includes s' frag
  end.

(** Lower case of a letter, for the case-insensitive tests ([/.../i]). *)
Definition lower (a : ascii) : ascii :=
  let n := nat_of_ascii a in
  if (65 <=? n)%nat && (n <=? 90)%nat then ascii_of_nat (n + 32) else a.

Fixpoint lowercase (s : string) : string :=
  match s with
  | EmptyString => EmptyString
  | String a s' => String (lower a) (lowercase s')
  end.

(** [/frag/i.test(s)] for a pattern without special characters, given in
    lower case. *)
Definition test_i (frag s : string) : bool := includes (lowercase s) frag.

(** ** Requests, responses, errors *)

Module Axios.

(** A request configuration.  [headers] is a JavaScript object used as a
    map; the source tests [config.headers] before every write, so it is
    optional here.  [_retry] is the marker the source adds
    ([RetriableRequestConfig]); an absent marker is [false]. *)
Record Config : Type := mkConfig {
  url : option string;
  method : string;
  data : JsValue;
  headers : option (gmap string string);
  _retry : bool;
}.

Record Response : Type := mkResponse {
  status : Z;
  body : JsValue;
}.

(** What an axios error carries: [response] is absent on a network or
    transport failure. *)
Record AxiosError : Type := mkAxiosError {
  response : option Response;
  config : Config;
}.

(** The handler receives [error: unknown]; [axios.isAxiosError(error)]
    tells the two cases apart. *)
Inductive Thrown : Type :=
| NotAxios (v : JsValue)
| IsAxios (e : AxiosError).

Definition set_header (k v : string) (c : Config) : Config :=
  mkConfig (url c) (method c) (data c)
           (match headers c with
            | Some h => Some (<[k := v]> h)
            | None => None
            end)
           (_retry c).

Definition set_retry (c : Config) : Config :=
  mkConfig (url c) (method c) (data c) (headers c) true.

Definition header (k : string) (c : Config) : option string :=
  match headers c with
  | Some h => h !! k
  | None => None
  end.

Definition has_headers (c : Config) : bool :=
  match headers c with
  | Some _ => true
  | None => false
  end.

End Axios.
Import Axios.

(** ** [src/lib/deviceInfo.ts] *)

Module deviceInfo.

(** The browser as the module sees it: the item [gm_device_id] of
    [localStorage], the identifier [generateId()] returns when it is asked
    for one, and [navigator.userAgent] ([None] where [navigator] is
    undefined). *)
Record Browser : Type := mkBrowser {
  gm_device_id : option string;
  generateId : string;
  userAgent : option string;
}.

(** The two module-level variables. *)
Record Cache : Type := mkCache {
  cachedDeviceId : option string;
  cachedLabel : option string;
}.

Definition buildLabel (b : Browser) : string :=
  match userAgent b with
  | None => "Unknown device"
  | Some ua =>
    if test_i "iphone" ua || test_i "ipad" ua || test_i "ipod" ua then "iOS device"
    else if test_i "android" ua then "Android device"
    else if test_i "windows nt" ua then "Windows desktop"
    else if test_i "mac os x" ua then "macOS desktop"
    else if test_i "linux" ua then "Linux desktop"
    else "Unknown device"
  end.

(** [getDeviceInfo()]: the pair it returns, and the cache and the browser
    it leaves.  [None] for the browser is [typeof window === 'undefined']. *)
Definition getDeviceInfo (win : option Browser) (c : Cache)
  : (option string * option string) * Cache * option Browser :=
  match win with
  | None => ((None, Some "SSR"), c, None)
  | Some b =>
    let '(id, b) :=
      if present (cachedDeviceId c) then (cachedDeviceId c, b)
      else if present (gm_device_id b) then (gm_device_id b, b)
      else (Some (generateId b),
            mkBrowser (Some (generateId b)) (generateId b) (userAgent b)) in
    let label :=
      if present (cachedLabel c) then cachedLabel c else Some (buildLabel b) in
    ((id, label), mkCache id label, Some b)
  end.

End deviceInfo.
Import deviceInfo.

(** ** [src/lib/secureAxios.ts] *)

Module secureAxios.

(** What the module reads from its surroundings: whether [window] is
    defined, and the pair [getDeviceInfo()] returns.  That pair is the same
    at every call of a process ([getDeviceInfo_stable] below), so it is a
    component of the surroundings. *)
Record Env : Type := mkEnv {
  window : bool;
  deviceId : option string;
  deviceLabel : option string;
}.

(** The surroundings in browser [win] ([None] on the server) with the
    device cache [c]. *)
Definition surroundings (win : option Browser) (c : Cache) : Env :=
  mkEnv (match win with Some _ => true | None => false end)
        (getDeviceInfo win c).1.1.1
        (getDeviceInfo win c).1.1.2.

(** An entry of [refreshQueue]: the closure pushed by a request that met a
    refresh in flight.  It captures the [resolve] of the promise handed to
    the caller (named here by the caller's number) and [originalRequest]. *)
Record Waiter : Type := mkWaiter {
  resolve : nat;
  originalRequest : Config;
}.

(** The three module-level variables. *)
Record State : Type := mkState {
  accessToken : option string;
  isRefreshing : bool;
  refreshQueue : list Waiter;
}.

Definition initial : State := mkState None false [].

Module tokenBridge.
Definition setAccessToken (token : option string) (st : State) : State :=
  mkState token (isRefreshing st) (refreshQueue st).
Definition getAccessToken (st : State) : option string :=
  accessToken st.
End tokenBridge.

Definition isAuthEndpoint (url : option string) : bool :=
  if negb (present url) then false
  else
    let url := default "" url in
    includes url "/auth/super-admin/login" ||
    includes url "/auth/super-admin/refresh" ||
    includes url "/auth/super-admin/mfa" ||
    includes url "/auth/super-admin/step-up".

Definition Bearer (token : string) : string := "Bearer " +:+ token.

(** The request interceptor: attach bearer and device headers. *)
Definition requestInterceptor (env : Env) (st : State) (config : Config) : Config :=
  let token := tokenBridge.getAccessToken st in
  let config :=
    if present token && has_headers config
    then set_header "Authorization" (Bearer (default "" token)) config
    else config in
  if window env && has_headers config then
    if present (deviceId env) then
      let config := set_header "x-device-id" (default "" (deviceId env)) config in
      if present (deviceLabel env)
      then set_header "x-device-label" (default "" (deviceLabel env)) config
      else config
    else config
  else config.

(** What a handler does to the outside before it returns or suspends. *)
Inductive Effect : Type :=
| Navigate (href : string)            (* window.location.href = href *)
| Refresh (c : Config)                (* api.post('/auth/super-admin/refresh', {}) *)
| Replay (caller : nat) (c : Config)  (* resolve(api(originalRequest)), return api(originalRequest) *)
| Issue (caller : nat) (c : Config)   (* a screen calls api(config) *)
| Resolved (caller : nat) (r : Response)
| Rejected (caller : nat) (e : Thrown).

(** How the first, synchronous part of the error handler ends. *)
Inductive Outcome : Type :=
| Reject (e : Thrown)                 (* return Promise.reject(e) *)
| Parked                              (* the returned promise waits in refreshQueue *)
| Awaiting (originalRequest : Config) (* suspended at the await of the refresh call *).

(** [api(config)]: every request passes the request interceptor before it
    leaves; the result is the configuration that goes out. *)
Definition api (env : Env) (st : State) (config : Config) : Config :=
  requestInterceptor env st config.

(** The configuration [api.post('/auth/super-admin/refresh', {})] starts from. *)
Definition refreshRequest : Config :=
  mkConfig (Some "/auth/super-admin/refresh") "post" (JObject []) (Some ∅) false.

(** The step-up test of the source: status 403, an object body that is not
    null, and a truthy [stepUp] field. *)
Definition isStepUp (response : Response) : bool :=
  (status response =? 403)%Z &&
  typeof_object (body response) && not_null (body response) &&
  truthy (getProp (body response) "stepUp").

(** The refresh path: the last part of the error handler, which a 401 on a
    request that is not an authentication endpoint goes through.  It starts
    with the check of the retry marker. *)
Definition refreshPath (env : Env) (st : State) (caller : nat) (error : Thrown)
           (originalRequest : Config) : State * list Effect * Outcome :=
  if _retry originalRequest then (st, [], Reject error)
  else
    let originalRequest := set_retry originalRequest in
    if isRefreshing st then
      (mkState (accessToken st) (isRefreshing st)
               (refreshQueue st ++ [mkWaiter caller originalRequest])%list,
       [], Parked)
    else
      let st := mkState (accessToken st) true (refreshQueue st) in
      (st, [Refresh (api env st refreshRequest)], Awaiting originalRequest).

(** The error handler of the response interceptor up to its first
    suspension point.  [caller] names the promise of the failed request. *)
Definition onRejected (env : Env) (st : State) (caller : nat) (error : Thrown)
  : State * list Effect * Outcome :=
  match error with
  | NotAxios _ => (st, [], Reject error)
  | IsAxios axiosErr =>
    let originalRequest := config axiosErr in
    match response axiosErr with
    | None => (st, [], Reject error)
    | Some response =>
      if isStepUp response then
        (st, if window env then [Navigate "/god/step-up"] else [], Reject error)
      else if negb (status response =? 401)%Z then (st, [], Reject error)
      else if isAuthEndpoint (url originalRequest) then (st, [], Reject error)
      else refreshPath env st caller error originalRequest
    end
  end.

(** Calling a queued closure: [cb(newToken)]. *)
Definition runCallback (env : Env) (st : State) (newToken : option string)
           (cb : Waiter) : Effect :=
  let originalRequest := originalRequest cb in
  let originalRequest :=
    if present newToken && has_headers originalRequest
    then set_header "Authorization" (Bearer (default "" newToken)) originalRequest
    else originalRequest in
  Replay (resolve cb) (api env st originalRequest).

(** After the await, the refresh call fulfilled with [data]. *)
Definition onRefreshFulfilled (env : Env) (st : State) (caller : nat)
           (originalRequest : Config) (data_accessToken : string)
  : State * list Effect :=
  let st := tokenBridge.setAccessToken (Some data_accessToken) st in
  let replays := map (runCallback env st (Some data_accessToken)) (refreshQueue st) in
  let st := mkState (accessToken st) false [] in
  let originalRequest :=
    set_header "Authorization" (Bearer data_accessToken) originalRequest in
  (st, (replays ++ [Replay caller (api env st originalRequest)])%list).

(** After the await, the refresh call rejected with [refreshErr]: the
    [catch] block.  The third component is what the handler rejects with. *)
Definition onRefreshRejected (env : Env) (st : State) (refreshErr : Thrown)
  : State * list Effect * Thrown :=
  let st := tokenBridge.setAccessToken None st in
  let replays := map (runCallback env st None) (refreshQueue st) in
  let st := mkState (accessToken st) false [] in
  (st, replays, refreshErr).

End secureAxios.
Import secureAxios.

(** ** The client among its requests

    The network decides when and how each request that left is answered.  A
    world holds the module state, the requests that are out ([wire], by the
    number of the promise that waits for them), the handler instances that
    are suspended at their [await] ([suspended], by the number of the
    refresh call they wait for) and everything done so far ([trace]).  One
    event is one turn of the event loop.

    A replay hands the configuration object to axios, which sends a merged
    copy of it: the marker and the headers travel with the request, and the
    error of a replay carries them back.  Configurations are therefore
    values here.  The request interceptor of a call runs in a microtask of
    the turn that made the call, before any other turn can change the token;
    it is applied at the call. *)

Module Net.

Record World : Type := mkWorld {
  client : State;
  nextId : nat;
  wire : gmap nat Config;
  suspended : gmap nat (nat * Config);
  trace : list Effect;
}.

Definition boot : World := mkWorld initial 0 ∅ ∅ [].

(** How a request that left can fail. *)
Inductive Failure : Type :=
| NoResponse                 (* network or transport failure *)
| BadStatus (r : Response)   (* the server answered with an error status *)
| Foreign (v : JsValue)      (* something that is not an axios error *).

(** The error the response interceptor receives for a request sent with
    configuration [c]. *)
Definition thrown (f : Failure) (c : Config) : Thrown :=
  match f with
  | NoResponse => IsAxios (mkAxiosError None c)
  | BadStatus r => IsAxios (mkAxiosError (Some r) c)
  | Foreign v => NotAxios v
  end.

Inductive Event : Type :=
| Call (url : option string) (method : string) (data : JsValue)
       (headers : gmap string string)      (* a screen calls the client *)
| Succeeds (id : nat) (r : Response)       (* an ordinary request is answered *)
| RefreshSucceeds (id : nat) (accessToken : string)
                                           (* a refresh call is answered *)
| Fails (id : nat) (f : Failure)
| SetToken (token : option string)         (* tokenBridge.setAccessToken, called
                                              from outside the module *).

Definition onClient (f : State -> State) (w : World) : World :=
  mkWorld (f (client w)) (nextId w) (wire w) (suspended w) (trace w).

Definition log (e : Effect) (w : World) : World :=
  mkWorld (client w) (nextId w) (wire w) (suspended w) (trace w ++ [e])%list.

(** Carry out one effect of a handler.  [k] is the handler instance that
    suspends on the refresh call, when the handler starts one. *)
Definition perform (k : option (nat * Config)) (w : World) (e : Effect) : World :=
  let w := log e w in
  match e with
  | Replay caller c =>
      mkWorld (client w) (nextId w) (<[caller := c]> (wire w)) (suspended w) (trace w)
  | Refresh c =>
      match k with
      | Some handler =>
          mkWorld (client w) (S (nextId w)) (<[nextId w := c]> (wire w))
                  (<[nextId w := handler]> (suspended w)) (trace w)
      | None => w
      end
  | _ => w
  end.

Definition step (env : Env) (w : World) (ev : Event) : World :=
  match ev with
  | Call u m d h =>
      let c := api env (client w) (mkConfig u m d (Some h) false) in
      mkWorld (client w) (S (nextId w)) (<[nextId w := c]> (wire w))
              (suspended w) (trace w ++ [Issue (nextId w) c])%list
  | Succeeds id r =>
      match wire w !! id, suspended w !! id with
      | Some _, None =>
          mkWorld (client w) (nextId w) (delete id (wire w)) (suspended w)
                  (trace w ++ [Resolved id r])%list
      | _, _ => w
      end
  | RefreshSucceeds id tok =>
      match wire w !! id, suspended w !! id with
      | Some _, Some (caller, orig) =>
          let '(st, effs) := onRefreshFulfilled env (client w) caller orig tok in
          foldl (perform None)
                (mkWorld st (nextId w) (delete id (wire w))
                         (delete id (suspended w)) (trace w))
                effs
      | _, _ => w
      end
  | Fails id f =>
      match wire w !! id with
      | None => w
      | Some c =>
          let '(st, effs, out) := onRejected env (client w) id (thrown f c) in
          let k := match out with
                   | Awaiting orig => Some (id, orig)
                   | _ => None
                   end in
          let w1 := foldl (perform k)
                          (mkWorld st (nextId w) (delete id (wire w))
                                   (suspended w) (trace w))
                          effs in
          match out with
          | Reject e =>
              match suspended w !! id with
              | None => log (Rejected id e) w1
              | Some (caller, _) =>
                  (* [id] was a refresh call: its await throws [e] *)
                  let '(st2, effs2, e2) := onRefreshRejected env (client w1) e in
                  log (Rejected caller e2)
                      (foldl (perform None)
                             (mkWorld st2 (nextId w1) (wire w1)
                                      (delete id (suspended w1)) (trace w1))
                             effs2)
              end
          | _ => w1
          end
      end
  | SetToken token => onClient (tokenBridge.setAccessToken token) w
  end.

Definition run (env : Env) (w : World) (evs : list Event) : World :=
  foldl (step env) w evs.

(** Counting in a trace. *)
Definition is_refresh (e : Effect) : bool :=
  match e with Refresh _ => true | _ => false end.

Definition is_replay_of (caller : nat) (e : Effect) : bool :=
  match e with Replay c _ => Nat.eqb c caller | _ => false end.

Definition is_navigate (e : Effect) : bool :=
  match e with Navigate _ => true | _ => false end.

Definition is_rejection_of (caller : nat) (e : Effect) : bool :=
  match e with Rejected c _ => Nat.eqb c caller | _ => false end.

Definition count (p : Effect -> bool) (t : list Effect) : nat :=
  length (List.filter p t).

(** The promises that wait in [refreshQueue]. *)
Definition parked (w : World) : list nat :=
  map resolve (refreshQueue (client w)).

(** The configuration a queued closure sends when it is called. *)
Definition resubmitted (env : Env) (st : State) (newToken : option string)
           (cb : Waiter) : Config :=
  api env st
      (if present newToken && has_headers (originalRequest cb)
       then set_header "Authorization" (Bearer (default "" newToken)) (originalRequest cb)
       else originalRequest cb).

End Net.

(** ** [src/store/authStore.ts] *)

Module authStore.

Inductive UserRole : Type := super_admin.

Record AuthUser : Type := mkAuthUser {
  id : string;
  email : option string;
  role : UserRole;
}.

(** The data fields of [AuthState]. *)
Record AuthState : Type := mkAuthState {
  user : option AuthUser;
  accessToken : option string;
  isLoading : bool;
  hasBootstrapped : bool;
}.

(** The object given to zustand's [set]: the fields it names are
    replaced, the others are kept. *)
Record Partial : Type := mkPartial {
  set_user : option (option AuthUser);
  set_accessToken : option (option string);
  set_isLoading : option bool;
  set_hasBootstrapped : option bool;
}.

Definition set (p : Partial) (s : AuthState) : AuthState :=
  mkAuthState (default (user s) (set_user p))
              (default (accessToken s) (set_accessToken p))
              (default (isLoading s) (set_isLoading p))
              (default (hasBootstrapped s) (set_hasBootstrapped p)).

(** The state [create] starts from. *)
Definition initial : AuthState := mkAuthState None None true false.

(** The store and the token holder live side by side; an action of the
    store is a sequence of writes to one or the other, in program order. *)
Record App : Type := mkApp {
  http : Net.World;
  store : AuthState;
}.

Definition start : App := mkApp Net.boot initial.

Inductive Write : Type :=
| Bridge (token : option string)   (* tokenBridge.setAccessToken(token) *)
| Store (p : Partial)              (* set(p) *).

Definition write (a : App) (w : Write) : App :=
  match w with
  | Bridge token =>
      mkApp (Net.onClient (tokenBridge.setAccessToken token) (http a)) (store a)
  | Store p => mkApp (http a) (set p (store a))
  end.

Definition exec (ws : list Write) (a : App) : App := foldl write a ws.

Definition setAuth (user : AuthUser) (accessToken : string) : list Write :=
  [ Bridge (Some accessToken);
    Store (mkPartial (Some (Some user)) (Some (Some accessToken))
                     (Some false) (Some true)) ].

Definition clearAuth : list Write :=
  [ Bridge None;
    Store (mkPartial (Some None) (Some None) (Some false) (Some true)) ].

Definition setLoading (value : bool) : list Write :=
  [ Store (mkPartial None None (Some value) None) ].

(** The token the request decorator would read now. *)
Definition bridgeToken (a : App) : option string :=
  tokenBridge.getAccessToken (Net.client (http a)).

End authStore.

(** ** [src/providers/AuthProvider.tsx] *)

Module AuthProvider.
Import authStore.

Record RefreshResponse : Type := mkRefreshResponse {
  accessToken : string;
  user : AuthUser;
}.

(** How the refresh call of [bootstrap] ends. *)
Inductive Settled : Type :=
| Fulfilled (data : RefreshResponse)
| Failed.

(** [bootstrap] up to its [await]. *)
Definition bootstrap_begin : list Write := setLoading true.

(** [bootstrap] after its [await]; [cancelled] is the flag the cleanup of
    the effect sets when the component is unmounted. *)
Definition bootstrap_end (cancelled : bool) (r : Settled) : list Write :=
  ((if cancelled then []
    else match r with
         | Fulfilled data =>
             setAuth (mkAuthUser (id (user data)) (email (user data)) (role (user data)))
                     (accessToken data)
         | Failed => clearAuth
         end)
   ++ (if negb cancelled then setLoading false else []))%list.

Definition bootstrap (cancelled : bool) (r : Settled) : list Write :=
  (bootstrap_begin ++ bootstrap_end cancelled r)%list.

(** Everything that writes to the store. *)
Inductive Op : Type :=
| SetAuth (user : AuthUser) (accessToken : string)
| ClearAuth
| SetLoading (value : bool)
| Bootstrap (cancelled : bool) (r : Settled).

Definition writes (o : Op) : list Write :=
  match o with
  | SetAuth u t => setAuth u t
  | ClearAuth => clearAuth
  | SetLoading v => setLoading v
  | Bootstrap c r => bootstrap c r
  end.

Definition program (ops : list Op) : list Write := concat (map writes ops).

(** The life of the application: actions on the store and turns of the
    event loop in the client, in any order. *)
Inductive Happening : Type :=
| StoreOp (o : Op)
| Network (ev : Net.Event).

Definition happen (env : Env) (a : App) (h : Happening) : App :=
  match h with
  | StoreOp o => exec (writes o) a
  | Network ev => mkApp (Net.step env (http a) ev) (store a)
  end.

Definition history (env : Env) (a : App) (hs : list Happening) : App :=
  foldl (happen env) a hs.

End AuthProvider.

(** ** Vocabulary of the statements *)

(** [frag] occurs in [s]: [s] is some text, then [frag], then some text. *)
Definition occurs_in (frag s : string) : Prop :=
  exists a b, s = a +:+ frag +:+ b.

(** The addresses of the authentication endpoints: login, refresh, the MFA
    operations and step-up. *)
Definition authEndpoint (u : string) : Prop :=
  occurs_in "/auth/super-admin/login" u \/
  occurs_in "/auth/super-admin/refresh" u \/
  occurs_in "/auth/super-admin/mfa" u \/
  occurs_in "/auth/super-admin/step-up" u.

(** The token-expired signal: a 401 on a request that is not an
    authentication endpoint and was not retried yet. *)
Definition expired (e : AxiosError) : Prop :=
  (exists r, response e = Some r /\ status r = 401%Z) /\
  isAuthEndpoint (url (config e)) = false /\
  _retry (config e) = false.

Section Vocabulary.
Import Net.

(** A world the client can be in: reached from the start by some events. *)
Definition reachable (env : Env) (w : Net.World) : Prop :=
  exists evs, w = Net.run env Net.boot evs.

(** One request of the scenario: the promise that waits for it, the
    configuration it left with, and the answer it gets. *)
Record Expiry : Type := mkExpiry {
  who : nat;
  sent : Config;
  answer : Response;
}.

(** The request is out in world [w] and its answer is a token-expired
    signal. *)
Definition signals (w : Net.World) (x : Expiry) : Prop :=
  Net.wire w !! who x = Some (sent x) /\
  expired (mkAxiosError (Some (answer x)) (sent x)).

Definition fails (x : Expiry) : Net.Event :=
  Net.Fails (who x) (Net.BadStatus (answer x)).

Definition waiter_of (x : Expiry) : Waiter :=
  mkWaiter (who x) (set_retry (sent x)).

(** What a replay after a successful refresh looks like: the request as
    it was, with the retry marker and the new token. *)
Definition renewed (T : string) (before after : Config) : Prop :=
  header "Authorization" after = Some (Bearer T) /\
  url after = url before /\ method after = method before /\
  data after = data before /\ _retry after = true.

(** The configuration with which an effect puts a request on the network. *)
Definition leaves (e : Effect) : option Config :=
  match e with
  | Issue _ c | Refresh c | Replay _ c => Some c
  | _ => None
  end.

(** The request left through the request interceptor while the token
    holder held [tok]: it is a request with headers that the interceptor
    decorated in a state whose token is [tok]. *)
Definition sent_with (env : Env) (tok : option string) (c : Config) : Prop :=
  exists st c0, has_headers c0 = true /\ secureAxios.accessToken st = tok /\
                c = requestInterceptor env st c0.

(** The effects of a handler that sends nothing. *)
Definition quiet (effs : list Effect) : Prop :=
  effs = [] \/ effs = [Navigate "/god/step-up"].

(** Sending the replays of a list of waiters. *)
Definition send_all (f : Waiter -> Config) (qs : list Waiter) (m : gmap nat Config)
  : gmap nat Config :=
  foldl (fun m q => <[resolve q := f q]> m) m qs.

(** Taking the answered requests of a list off the wire. *)
Definition withdraw (xs : list Expiry) (m : gmap nat Config) : gmap nat Config :=
  foldl (fun m x => delete (who x) m) m xs.

(** A request that is held back until the refresh settles: it is out of
    the wire, carries the retry marker and was not replayed so far. *)
Definition waiting (w : World) (caller : nat) (orig : Config) : Prop :=
  caller < nextId w /\ wire w !! caller = None /\
  _retry orig = true /\ has_headers orig = true /\
  count (is_replay_of caller) (trace w) = 0.

Record Inv (w : World) : Prop := mkInv {
  inv_wire : forall id c, wire w !! id = Some c -> id < nextId w /\ has_headers c = true;
  inv_idle : isRefreshing (client w) = false ->
             refreshQueue (client w) = [] /\ suspended w = ∅;
  inv_busy : isRefreshing (client w) = true ->
             exists rid caller orig c,
               suspended w = {[rid := (caller, orig)]} /\
               wire w !! rid = Some c /\ isAuthEndpoint (url c) = true /\
               _retry c = false /\
               waiting w caller orig /\ caller ∉ parked w;
  inv_queue : NoDup (parked w) /\
              forall q, q ∈ refreshQueue (client w) ->
                        waiting w (resolve q) (originalRequest q);
  inv_once : forall id, count (is_replay_of id) (trace w) <= 1;
  inv_fresh : forall id c, wire w !! id = Some c -> _retry c = false ->
                           count (is_replay_of id) (trace w) = 0;
  inv_future : forall id, nextId w <= id -> count (is_replay_of id) (trace w) = 0;
}.

End Vocabulary.

Section StoreVocabulary.
Import authStore AuthProvider.

(** A write that cannot take [hasBootstrapped] back. *)
Definition keeps_bootstrapped (w : Write) : Prop :=
  match w with
  | Bridge _ => True
  | Store p => set_hasBootstrapped p <> Some false
  end.

(** Agreement of the two places that hold the token. *)
Definition agree (a : App) : Prop :=
  authStore.accessToken (store a) = bridgeToken a.

End StoreVocabulary.

(** The scenario of the specification: three screens call the client while
    the token T1 is held, and all three calls are answered with 401. *)
Module Scenario.

Definition env : Env := mkEnv true (Some "device-1") (Some "Linux desktop").

Definition calls : list Net.Event :=
  [ Net.SetToken (Some "T1");
    Net.Call (Some "/admin-monitor/overview") "get" JUndefined ∅;
    Net.Call (Some "/auth/super-admin/sessions") "get" JUndefined ∅;
    Net.Call (Some "/admin-monitor/incidents/7/status") "patch"
             (JObject [("status", JString "closed")]) ∅ ].

Definition unauthorized : Response :=
  mkResponse 401 (JObject [("message", JString "Unauthorized")]).

Definition holding : State := mkState (Some "T1") false [].

Definition A : Expiry :=
  mkExpiry 0 (api env holding
                  (mkConfig (Some "/admin-monitor/overview") "get" JUndefined (Some ∅) false))
           unauthorized.
Definition B : Expiry :=
  mkExpiry 1 (api env holding
                  (mkConfig (Some "/auth/super-admin/sessions") "get" JUndefined (Some ∅) false))
           unauthorized.
Definition C : Expiry :=
  mkExpiry 2 (api env holding
                  (mkConfig (Some "/admin-monitor/incidents/7/status") "patch"
                            (JObject [("status", JString "closed")]) (Some ∅) false))
           unauthorized.

Definition w0 : Net.World := Net.run env Net.boot calls.

(** The refresh call is request number 3; here it is answered with 401. *)
Definition refresh_fails : list Net.Event :=
  calls ++ map fails [A; B; C] ++ [Net.Fails 3 (Net.BadStatus unauthorized)].

(** The error of the refresh call. *)
Definition refreshErr : Thrown :=
  IsAxios (mkAxiosError (Some unauthorized)
                        (api env (mkState (Some "T1") true []) refreshRequest)).

(** Request A is replayed after a successful refresh and answered with
    401 once more. *)
Definition second_401 : list Net.Event :=
  calls ++ [fails A; Net.RefreshSucceeds 3 "T2"; Net.Fails 0 (Net.BadStatus unauthorized)].

End Scenario.

(** * The screens that use the client *)

(** ** [next/navigation], as far as the screens use it *)

Module Router.

Inductive Nav : Type :=
| Push (href : string)      (* router.push(href) *)
| Replace (href : string)   (* router.replace(href) *).

End Router.

(** ** [src/app/(god)/god/layout.tsx] *)

Module GodLayout.
Import authStore Router.

(** Label and href of the entries of the side bar. *)
Definition navItems : list (string * string) :=
  [ ("Overview", "/god");
    ("Sessions", "/god/sessions");
    ("Security alerts", "/god/security-alerts");
    ("Security feed", "/god/security-feed");
    ("Incidents", "/god/incidents") ].

(** [role === 'super_admin'] *)
Definition is_super_admin (r : UserRole) : bool :=
  match r with
  | super_admin => true
  end.

(** [!user || user.role !== 'super_admin'] *)
Definition noSuperAdmin (user : option AuthUser) : bool :=
  match user with
  | None => true
  | Some u => negb (is_super_admin (role u))
  end.

(** The effect of the layout: what it asks of the router when it runs in
    store state [s]. *)
Definition effect (s : AuthState) : list Nav :=
  if negb (hasBootstrapped s) then []
  else if noSuperAdmin (user s) then [Replace "/login"]
  else [].

(** What the layout shows: the neutral screen, or the panel of a user. *)
Inductive Screen : Type :=
| Checking
| Panel (user : AuthUser).

Definition render (s : AuthState) : Screen :=
  if negb (hasBootstrapped s) || isLoading s || noSuperAdmin (user s) then Checking
  else match user s with
       | Some u => Panel u
       | None => Checking   (* not reached: [user] passed the test above *)
       end.

(** [isActive] of an entry; [pathname] is [string | null]. *)
Definition isActive (pathname : option string) (href : string) : bool :=
  match pathname with
  | None => false
  | Some p =>
      String.eqb p href || (String.prefix href p && negb (String.eqb href "/god"))
  end.

(** The entries shown as active at [pathname]. *)
Definition activeItems (pathname : option string) : list (string * string) :=
  List.filter (fun item => isActive pathname item.2) navItems.

End GodLayout.

(** ** [src/components/auth/LogoutButton.tsx] *)

Module LogoutButton.
Import authStore Router.

(** [api.post('/auth/super-admin/logout', {})] *)
Definition logoutRequest : Net.Event :=
  Net.Call (Some "/auth/super-admin/logout") "post" (JObject []) ∅.

(** [handleLogout] up to its [await]: the new value of [isLoggingOut] and
    the call it makes, or nothing when a logout is already under way. *)
Definition handleLogout_begin (isLoggingOut : bool) : option (bool * Net.Event) :=
  if isLoggingOut then None else Some (true, logoutRequest).

(** [handleLogout] after its [await]: the [finally] block, which runs
    whether the call was fulfilled or rejected.  It gives the writes of
    [clearAuth()], the navigation and the new value of [isLoggingOut]. *)
Definition handleLogout_end : list Write * list Nav * bool :=
  (clearAuth, [Replace "/login"], false).

End LogoutButton.

(** ** [src/components/auth/LoginForm.tsx] *)

Module LoginForm.
Import authStore Router.

Inductive Phase : Type := PASSWORD | MFA.

(** The state of the component.  [error] is [string | null] by its type;
    the [catch] block stores what it reads from an error of type
    [unknown]. *)
Record Form : Type := mkForm {
  email : string;
  password : string;
  mfaCode : string;
  backupCode : string;
  phase : Phase;
  isSubmitting : bool;
  error : JsValue;
  info : option string;
}.

(** [LoginResponse]: the two shapes, told apart by [mfaRequired]. *)
Inductive LoginResponse : Type :=
| LoginSuccess (accessToken : string) (user : AuthUser)
| LoginMfaRequired (message : option string).

(** [x || undefined] for a string that may be null. *)
Definition orUndefined (x : option string) : JsValue :=
  if present x then JString (default "" x) else JUndefined.

(** The payload of the login call; the pair of [getDeviceInfo()] is read
    from the surroundings. *)
Definition payload (env : Env) (f : Form) : JsValue :=
  JObject ([ ("email", JString (email f));
             ("password", JString (password f));
             ("deviceId", orUndefined (deviceId env));
             ("deviceLabel", orUndefined (deviceLabel env)) ] ++
           match phase f with
           | MFA => [ ("mfaCode", orUndefined (Some (mfaCode f)));
                      ("backupCode", orUndefined (Some (backupCode f))) ]
           | PASSWORD => []
           end)%list.

(** [handleSubmit] up to its [await]: the state it leaves and the call it
    makes. *)
Definition handleSubmit_begin (env : Env) (f : Form) : Form * Net.Event :=
  (mkForm (email f) (password f) (mfaCode f) (backupCode f) (phase f) true JNull None,
   Net.Call (Some "/auth/super-admin/login") "post" (payload env f) ∅).

(** How the login call ends. *)
Inductive Settled : Type :=
| Answered (data : LoginResponse)
| Threw (err : Thrown).

(** [v === null || v === undefined] *)
Definition nullish (v : JsValue) : bool :=
  match v with
  | JUndefined | JNull => true
  | _ => false
  end.

(** [v?.k] *)
Definition optChain (v : JsValue) (k : string) : JsValue :=
  if nullish v then JUndefined else getProp v k.

(** [a ?? b] *)
Definition orElse (a b : JsValue) : JsValue :=
  if nullish a then b else a.

(** The [catch] block: the argument of [setError], or [None] where reading
    [err.response] throws (the error is null or undefined) and [setError]
    is not reached. *)
Definition onError (err : Thrown) : option JsValue :=
  match err with
  | IsAxios e =>
      match response e with
      | Some r =>
          if (status r =? 401)%Z
          then Some (JString "Authentication failed. Check your credentials or MFA code.")
          else Some (orElse (optChain (body r) "message")
                            (JString "Login failed. Please try again."))
      | None => Some (JString "Login failed. Please try again.")
      end
  | NotAxios v =>
      if nullish v then None
      else
        let response := getProp v "response" in
        match optChain response "status" with
        | JNumber 401 =>
            Some (JString "Authentication failed. Check your credentials or MFA code.")
        | _ =>
            Some (orElse (optChain (optChain response "data") "message")
                         (JString "Login failed. Please try again."))
        end
  end.

(** [handleSubmit] after its [await]: the state of the form, the writes to
    the store and what is asked of the router. *)
Definition handleSubmit_end (f : Form) (r : Settled) : Form * list Write * list Nav :=
  match r with
  | Answered (LoginMfaRequired message) =>
      (mkForm (email f) (password f) (mfaCode f) (backupCode f) MFA false (error f)
              (Some (if present message then default "" message
                     else "MFA required. Please enter your code to continue.")),
       [], [])
  | Answered (LoginSuccess accessToken user) =>
      (mkForm (email f) (password f) (mfaCode f) (backupCode f) (phase f) false
              (error f) (info f),
       setAuth user accessToken, [Push "/god"])
  | Threw err =>
      (mkForm (email f) (password f) (mfaCode f) (backupCode f) (phase f) false
              (default (error f) (onError err)) (info f),
       [], [])
  end.

End LoginForm.

(** ** Further vocabulary *)

(** An answer that is a 401. *)
Definition is_401 (ev : Net.Event) : bool :=
  match ev with
  | Net.Fails _ (Net.BadStatus r) => (status r =? 401)%Z
  | _ => false
  end.

Section PromiseVocabulary.
Import Net.

(** The promise of [caller] is settled by the effect: resolved or
    rejected. *)
Definition is_settlement_of (caller : nat) (e : Effect) : bool :=
  match e with
  | Resolved c _ | Rejected c _ => Nat.eqb c caller
  | _ => false
  end.

(** The promise of [id] still waits for something: its request is out, its
    closure waits in [refreshQueue], or its handler is suspended at the
    [await] of the refresh call. *)
Definition pending (w : World) (id : nat) : Prop :=
  is_Some (wire w !! id) \/ id ∈ parked w \/
  exists rid orig, suspended w !! rid = Some (id, orig).

Record Once (w : World) : Prop := mkOnce {
  once_most : forall id, count (is_settlement_of id) (trace w) <= 1;
  once_pending : forall id, pending w id -> count (is_settlement_of id) (trace w) = 0;
  once_future : forall id, nextId w <= id -> count (is_settlement_of id) (trace w) = 0;
}.

End PromiseVocabulary.

Section SessionVocabulary.
Import authStore AuthProvider.

(** A write that leaves the session fields alone, or sets user and token
    together: both to a value or both to null, with [hasBootstrapped] up. *)
Definition writes_session_together (w : Write) : Prop :=
  match w with
  | Bridge _ => True
  | Store p =>
      (set_user p = None /\ set_accessToken p = None /\ set_hasBootstrapped p = None) \/
      (exists u t, set_user p = Some (Some u) /\ set_accessToken p = Some (Some t) /\
                   set_hasBootstrapped p = Some true) \/
      (set_user p = Some None /\ set_accessToken p = Some None /\
       set_hasBootstrapped p = Some true)
  end.

(** User and token are there together, and not before the bootstrap. *)
Definition session_together (s : AuthState) : Prop :=
  (authStore.user s = None <-> authStore.accessToken s = None) /\
  (hasBootstrapped s = false -> authStore.user s = None).

End SessionVocabulary.

(** * Properties *)

(** ** Strings *)

Section Strings.

Lemma prefix_app (p s : string) :
  String.prefix p s = true <-> exists b, s = p +:+ b.
Proof.
  revert s. induction p as [|a p IH]; intros s.
  - destruct s; split; simpl; eauto.
  - destruct s as [|b s]; cbn [String.prefix String.append].
    + split; [discriminate | intros [t Ht]; discriminate].
    + destruct (Ascii.ascii_dec a b) as [->|Hne].
      * rewrite IH. split; intros [t Ht]; exists t.
        -- by rewrite Ht.
        -- by injection Ht.
      * split; [discriminate|]. intros [t Ht].
        injection Ht as Hab _. congruence.
Qed.

Lemma includes_occurs (s frag : string) :
  includes s frag = true <-> occurs_in frag s.
Proof.
  unfold occurs_in. induction s as [|c s IH].
  - cbn [includes]. rewrite orb_false_r, prefix_app. split.
    + intros [b Hb]. by exists "", b.
    + intros [a [b Hab]]. destruct a; [by exists b | discriminate].
  - cbn [includes]. rewrite orb_true_iff, prefix_app, IH. split.
    + intros [[b Hb] | [a [b Hab]]].
      * by exists "", b.
      * exists (String c a), b. simpl. by rewrite Hab.
    + intros [a [b Hab]]. destruct a as [|c' a].
      * left. by exists b.
      * right. simpl in Hab. injection Hab as _ Hs. by exists a, b.
Qed.

Lemma present_Some (o : option string) :
  present o = true <-> exists s, o = Some s /\ s <> "".
Proof.
  destruct o as [s|]; simpl.
  - rewrite negb_true_iff. split.
    + intros H. exists s. split; [done|]. intros ->. discriminate.
    + intros [s' [[= <-] Hne]]. by apply String.eqb_neq.
  - split; [discriminate | intros [s [? _]]; discriminate].
Qed.

End Strings.

(** ** The error handler, branch by branch *)

Section Handler.

Variable env : Env.

Lemma status_401_not_stepUp (r : Response) :
  status r = 401%Z -> isStepUp r = false.
Proof. intros H. unfold isStepUp. by rewrite H. Qed.

Lemma onRejected_expired (st : State) (caller : nat) (e : AxiosError) :
  expired e ->
  onRejected env st caller (IsAxios e) =
  if isRefreshing st
  then (mkState (secureAxios.accessToken st) true
                (refreshQueue st ++ [mkWaiter caller (set_retry (config e))]),
        [], Parked)
  else (mkState (secureAxios.accessToken st) true (refreshQueue st),
        [Refresh (api env (mkState (secureAxios.accessToken st) true (refreshQueue st))
                      refreshRequest)],
        Awaiting (set_retry (config e))).
Proof.
  intros [[r [Hr H401]] [Hauth Hretry]]. unfold onRejected, refreshPath.
  rewrite Hr, (status_401_not_stepUp r H401), H401, Hauth, Hretry. simpl.
  destruct (isRefreshing st) eqn:E; [|done]. done.
Qed.

(** Every way out of [onRejected] other than the refresh logic rejects
    with the error it was given and leaves the module state alone. *)
Lemma onRejected_not_expired (st : State) (caller : nat) (error : Thrown) :
  (forall e, error = IsAxios e -> ~ expired e) ->
  exists effs, onRejected env st caller error = (st, effs, Reject error) /\
               (effs = [] \/ effs = [Navigate "/god/step-up"]).
Proof.
  intros Hne. destruct error as [v|e]; [exists []; auto|].
  specialize (Hne e eq_refl). unfold onRejected, refreshPath.
  destruct (response e) as [r|] eqn:Hr; [|exists []; auto].
  destruct (isStepUp r) eqn:Hs.
  { eexists. split; [done|]. destruct (window env); auto. }
  destruct (status r =? 401)%Z eqn:H401; simpl; [|exists []; auto].
  destruct (isAuthEndpoint (url (config e))) eqn:Ha; [exists []; auto|].
  destruct (_retry (config e)) eqn:Ht; [exists []; auto|].
  exfalso. apply Hne. split; [|done]. exists r. split; [done|].
  by apply Z.eqb_eq.
Qed.

Lemma expired_or_not (e : AxiosError) : expired e \/ ~ expired e.
Proof.
  unfold expired. destruct (response e) as [r|].
  - destruct (decide (status r = 401%Z)) as [H401|Hne].
    + destruct (isAuthEndpoint (url (config e))), (_retry (config e));
        try (right; intros [_ [? ?]]; congruence).
      left. split; [|done]. by exists r.
    + right. intros [[r' [[= <-] ?]] _]. done.
  - right. intros [[r' [? _]] _]. done.
Qed.

End Handler.

(** ** Classification of the failing request *)

Lemma isAuthEndpoint_authEndpoint (url : option string) :
  isAuthEndpoint url = true <-> exists u, url = Some u /\ authEndpoint u.
Proof.
  unfold isAuthEndpoint, authEndpoint. destruct url as [u|]; simpl.
  - destruct (String.eqb_spec u "") as [->|Hne]; simpl.
    + split; [discriminate|]. intros [u [[= <-] H]].
      exfalso. rewrite <- !includes_occurs in H. vm_compute in H.
      destruct H as [H|[H|[H|H]]]; discriminate.
    + rewrite !orb_true_iff, !includes_occurs. split.
      * intros H. exists u. split; [done|]. tauto.
      * intros [u' [[= <-] H]]. tauto.
  - split; [discriminate|]. by intros [u [? _]].
Qed.

(** C10. [isAuthEndpoint(url)] is true exactly when [url] is a defined
    string in which one of the four fragments occurs.  In particular a 401
    on a request whose configuration has no url is not taken for an
    authentication endpoint: the handler goes on into the refresh path,
    where a request that was not retried yet is queued when a refresh is in
    flight and starts one otherwise. *)
Theorem isAuthEndpoint_is_substring_containment :
  (forall url : option string,
      isAuthEndpoint url = true <->
      exists u, url = Some u /\
        (occurs_in "/auth/super-admin/login" u \/
         occurs_in "/auth/super-admin/refresh" u \/
         occurs_in "/auth/super-admin/mfa" u \/
         occurs_in "/auth/super-admin/step-up" u)) /\
  isAuthEndpoint None = false /\
  (forall env st caller body m d h retried,
      onRejected env st caller
        (IsAxios (mkAxiosError (Some (mkResponse 401 body)) (mkConfig None m d h retried))) =
      refreshPath env st caller
        (IsAxios (mkAxiosError (Some (mkResponse 401 body)) (mkConfig None m d h retried)))
        (mkConfig None m d h retried)) /\
  (forall env st caller body m d h,
      onRejected env st caller
        (IsAxios (mkAxiosError (Some (mkResponse 401 body)) (mkConfig None m d h false))) =
      if isRefreshing st
      then (mkState (secureAxios.accessToken st) true
                    (refreshQueue st ++ [mkWaiter caller (mkConfig None m d h true)]),
            [], Parked)
      else (mkState (secureAxios.accessToken st) true (refreshQueue st),
            [Refresh (api env (mkState (secureAxios.accessToken st) true (refreshQueue st))
                          refreshRequest)],
            Awaiting (mkConfig None m d h true))).
Proof.
  split; [exact isAuthEndpoint_authEndpoint|]. split; [done|]. split; [done|].
  intros env st caller body m d h. rewrite onRejected_expired; [done|].
  split; [|done]. by eexists.
Qed.

(** C8. A failure without any response is handed back as it came: the
    handler rejects with the very error it received, does nothing else, and
    the refreshing flag, the queue and the held token stay as they were. *)
Theorem no_response_passes_through (env : Env) (st : State) (caller : nat) (c : Config) :
  onRejected env st caller (IsAxios (mkAxiosError None c)) =
  (st, [], Reject (IsAxios (mkAxiosError None c))).
Proof. done. Qed.

(** C5. A 401 answer to an authentication endpoint (login, refresh, MFA,
    step-up) starts no refresh: the handler rejects with the error
    unchanged, issues nothing, and leaves flag, queue and token untouched. *)
Theorem auth_endpoint_401_never_refreshes
        (env : Env) (st : State) (caller : nat) (r : Response) (c : Config) (u : string) :
  status r = 401%Z ->
  url c = Some u ->
  authEndpoint u ->
  onRejected env st caller (IsAxios (mkAxiosError (Some r) c)) =
  (st, [], Reject (IsAxios (mkAxiosError (Some r) c))).
Proof.
  intros H401 Hu Hauth. unfold onRejected, refreshPath. cbn [response config].
  rewrite (status_401_not_stepUp r H401), H401. simpl.
  assert (isAuthEndpoint (url c) = true) as ->; [|done].
  apply isAuthEndpoint_authEndpoint. eauto.
Qed.

Lemma auth_endpoint_401_never_refreshes_witness :
  onRejected (mkEnv true (Some "d1") (Some "Linux desktop"))
             (mkState (Some "t0") false []) 7
             (IsAxios (mkAxiosError (Some (mkResponse 401 JNull))
                        (mkConfig (Some "/auth/super-admin/login") "post" JNull (Some ∅) false))) =
  (mkState (Some "t0") false [], [],
   Reject (IsAxios (mkAxiosError (Some (mkResponse 401 JNull))
                     (mkConfig (Some "/auth/super-admin/login") "post" JNull (Some ∅) false)))).
Proof.
  apply (auth_endpoint_401_never_refreshes _ _ _ _ _ "/auth/super-admin/login").
  - reflexivity.
  - reflexivity.
  - left. exists "", "". reflexivity.
Defined.

(** ** Step-up *)

Lemma stepUp_flag (r : Response) :
  status r = 403%Z -> getProp (body r) "stepUp" = JBool true -> isStepUp r = true.
Proof.
  intros H403 Hflag. unfold isStepUp. rewrite H403, Hflag.
  destruct (body r); try discriminate. done.
Qed.

(** C4, as amended.  A 403 whose body carries [stepUp: true] never reaches
    the 401 logic: the handler rejects with the original error and leaves
    flag, queue and token alone, whatever they are.  Its only effect is the
    redirect to the step-up screen, exactly once when a [window] exists and
    not at all when there is none. *)
Theorem stepUp_redirects_where_window_exists
        (env : Env) (st : State) (caller : nat) (r : Response) (c : Config) :
  status r = 403%Z ->
  getProp (body r) "stepUp" = JBool true ->
  onRejected env st caller (IsAxios (mkAxiosError (Some r) c)) =
  (st, if window env then [Navigate "/god/step-up"] else [],
   Reject (IsAxios (mkAxiosError (Some r) c))).
Proof.
  intros H403 Hflag. unfold onRejected, refreshPath. cbn [response config].
  by rewrite (stepUp_flag r H403 Hflag).
Qed.

Lemma stepUp_redirects_where_window_exists_witness :
  onRejected (mkEnv true (Some "d1") (Some "Linux desktop"))
             (mkState (Some "t0") true []) 3
             (IsAxios (mkAxiosError
                         (Some (mkResponse 403 (JObject [("stepUp", JBool true)])))
                         (mkConfig (Some "/admin-monitor/overview") "get" JUndefined (Some ∅) false))) =
  (mkState (Some "t0") true [], [Navigate "/god/step-up"],
   Reject (IsAxios (mkAxiosError
                      (Some (mkResponse 403 (JObject [("stepUp", JBool true)])))
                      (mkConfig (Some "/admin-monitor/overview") "get" JUndefined (Some ∅) false)))).
Proof.
  apply (stepUp_redirects_where_window_exists
           (mkEnv true (Some "d1") (Some "Linux desktop"))); reflexivity.
Defined.

(** C4 as it was stated fails: where no [window] is defined the handler
    does not redirect. *)
Lemma stepUp_redirect_not_unconditional :
  ~ (forall (env : Env) (st : State) (caller : nat) (r : Response) (c : Config),
        status r = 403%Z ->
        getProp (body r) "stepUp" = JBool true ->
        Net.count Net.is_navigate
                  (onRejected env st caller (IsAxios (mkAxiosError (Some r) c))).1.2 = 1).
Proof.
  intros H.
  specialize (H (mkEnv false None (Some "SSR")) initial 0
                (mkResponse 403 (JObject [("stepUp", JBool true)]))
                (mkConfig (Some "/admin-monitor/overview") "get" JUndefined (Some ∅) false)
                eq_refl eq_refl).
  vm_compute in H. discriminate.
Qed.

(** ** The device identity *)

Lemma buildLabel_present (b : Browser) : present (Some (buildLabel b)) = true.
Proof. unfold buildLabel. repeat case_match; done. Qed.

Lemma getDeviceInfo_present (b : Browser) (c : Cache) :
  generateId b <> "" ->
  present (getDeviceInfo (Some b) c).1.1.1 = true /\
  present (getDeviceInfo (Some b) c).1.1.2 = true.
Proof.
  intros Hg. unfold getDeviceInfo.
  destruct (present (cachedDeviceId c)) eqn:Hc, (present (gm_device_id b)) eqn:Hs,
           (present (cachedLabel c)) eqn:Hl; simpl; repeat split; try done;
    try apply buildLabel_present; by apply String.eqb_neq in Hg as ->.
Qed.

(** From its second call on, [getDeviceInfo] answers from its cache: the
    same pair, and nothing changes any more. *)
Lemma getDeviceInfo_stable (b : Browser) (c : Cache) :
  generateId b <> "" ->
  forall r c' b', getDeviceInfo (Some b) c = (r, c', Some b') ->
                  getDeviceInfo (Some b') c' = (r, c', Some b').
Proof.
  intros Hg r c' b' H.
  destruct (getDeviceInfo_present b c Hg) as [Hid Hlab]. rewrite H in Hid, Hlab.
  unfold getDeviceInfo in H.
  destruct (present (cachedDeviceId c)) eqn:Hc, (present (gm_device_id b)) eqn:Hs,
           (present (cachedLabel c)) eqn:Hl; injection H as <- <- <-;
    simpl in *; unfold getDeviceInfo; simpl; rewrite ?Hid, ?Hlab, ?Hc, ?Hl; done.
Qed.

(** ** The request decorator *)

Section Decorator.

Variable env : Env.

Lemma header_set_header (k k' v : string) (c : Config) :
  header k (set_header k' v c) =
  if has_headers c then (if decide (k' = k) then Some v else header k c) else None.
Proof.
  unfold header, set_header, has_headers. simpl.
  destruct (headers c) as [h|]; [|done].
  by rewrite lookup_insert.
Qed.

Lemma has_headers_set_header (k v : string) (c : Config) :
  has_headers (set_header k v c) = has_headers c.
Proof. unfold has_headers, set_header. simpl. by destruct (headers c). Qed.

Lemma has_headers_requestInterceptor (st : State) (c : Config) :
  has_headers (requestInterceptor env st c) = has_headers c.
Proof.
  unfold requestInterceptor.
  repeat (case_match; rewrite ?has_headers_set_header); done.
Qed.

Lemma requestInterceptor_Authorization (st : State) (c : Config) :
  has_headers c = true ->
  header "Authorization" (requestInterceptor env st c) =
  if present (secureAxios.accessToken st)
  then Bearer <$> secureAxios.accessToken st
  else header "Authorization" c.
Proof.
  intros Hh. unfold requestInterceptor, tokenBridge.getAccessToken.
  rewrite Hh, andb_true_r.
  destruct (present (secureAxios.accessToken st)) eqn:Hp.
  - apply present_Some in Hp as [t [Ht _]]. rewrite Ht. simpl.
    repeat (case_match;
            rewrite ?header_set_header, ?has_headers_set_header, ?Hh in *;
            simpl; try done).
  - repeat (case_match;
            rewrite ?header_set_header, ?has_headers_set_header, ?Hh in *;
            simpl; try done).
Qed.

Lemma requestInterceptor_same_request (st : State) (c : Config) :
  url (requestInterceptor env st c) = url c /\
  method (requestInterceptor env st c) = method c /\
  data (requestInterceptor env st c) = data c /\
  _retry (requestInterceptor env st c) = _retry c.
Proof. unfold requestInterceptor. repeat case_match; done. Qed.

End Decorator.

Section DecoratorDevice.

Variable env : Env.

Lemma requestInterceptor_device_id (st : State) (c : Config) :
  has_headers c = true ->
  header "x-device-id" (requestInterceptor env st c) =
  if window env && present (deviceId env)
  then deviceId env
  else header "x-device-id" c.
Proof.
  intros Hh. unfold requestInterceptor.
  destruct (window env), (present (deviceId env)) eqn:Hid;
    try apply present_Some in Hid as [i [-> _]]; simpl;
    repeat (case_match;
            rewrite ?header_set_header, ?has_headers_set_header, ?Hh in *;
            simpl in *; try done).
Qed.

Lemma requestInterceptor_device_label (st : State) (c : Config) :
  has_headers c = true ->
  header "x-device-label" (requestInterceptor env st c) =
  if window env && present (deviceId env) && present (deviceLabel env)
  then deviceLabel env
  else header "x-device-label" c.
Proof.
  intros Hh. unfold requestInterceptor.
  destruct (window env), (present (deviceId env)) eqn:Hid,
           (present (deviceLabel env)) eqn:Hl;
    try apply present_Some in Hid as [i [-> _]];
    try apply present_Some in Hl as [l [-> _]]; simpl;
    repeat (case_match;
            rewrite ?header_set_header, ?has_headers_set_header, ?Hh in *;
            simpl in *; try done).
Qed.

End DecoratorDevice.

(** ** The store *)

Section Store.
Import authStore AuthProvider.

Lemma writes_keep_bootstrapped (o : Op) : Forall keeps_bootstrapped (writes o).
Proof.
  destruct o as [u t| |v|c r]; simpl; repeat constructor; try done.
  unfold bootstrap, bootstrap_begin, bootstrap_end.
  destruct c, r; simpl; repeat constructor; done.
Qed.

Lemma program_keeps_bootstrapped (ops : list Op) :
  Forall keeps_bootstrapped (program ops).
Proof.
  unfold program. induction ops as [|o ops IH]; simpl; [constructor|].
  apply Forall_app. split; [apply writes_keep_bootstrapped | exact IH].
Qed.

Lemma write_keeps_bootstrapped (w : Write) (a : App) :
  keeps_bootstrapped w ->
  hasBootstrapped (store a) = true ->
  hasBootstrapped (store (write a w)) = true.
Proof.
  destruct w as [t|p]; simpl; [done|].
  intros Hp Ha. destruct (set_hasBootstrapped p) as [[]|]; simpl; done.
Qed.

Lemma exec_keeps_bootstrapped (ws : list Write) (a : App) :
  Forall keeps_bootstrapped ws ->
  hasBootstrapped (store a) = true ->
  hasBootstrapped (store (exec ws a)) = true.
Proof.
  unfold exec. revert a. induction ws as [|w ws IH]; intros a Hws Ha; [done|].
  inversion_clear Hws as [|?? Hw Hrest]. simpl. apply IH; [done|].
  by apply write_keeps_bootstrapped.
Qed.

Lemma exec_app (ws1 ws2 : list Write) (a : App) :
  exec (ws1 ++ ws2) a = exec ws2 (exec ws1 a).
Proof. unfold exec. apply foldl_app. Qed.

Lemma writes_agree (o : Op) (a : App) : agree a -> agree (exec (writes o) a).
Proof.
  unfold agree, bridgeToken.
  destruct o as [u t| |v|c r]; simpl; try done.
  unfold bootstrap, bootstrap_begin, bootstrap_end.
  destruct c, r; simpl; done.
Qed.

End Store.

Section StoreClaims.
Import authStore AuthProvider.

(** C7, as amended.  [hasBootstrapped] starts false; at no point of any
    sequence of store actions and bootstrap runs (cut anywhere, also in the
    middle of an action) does it go from true back to false, so it changes
    at most once.  A bootstrap run that was not cancelled leaves it true,
    whether its refresh call succeeded or failed, also when it runs a
    second time; a run that was cancelled before its refresh call settled
    leaves it as it was. *)
Theorem hasBootstrapped_is_monotone :
  hasBootstrapped authStore.initial = false /\
  (forall (ops : list Op) (ws1 ws2 : list Write) (a : App),
      program ops = (ws1 ++ ws2)%list ->
      hasBootstrapped (store (exec ws1 a)) = true ->
      hasBootstrapped (store (exec (ws1 ++ ws2) a)) = true) /\
  (forall (a : App),
      hasBootstrapped (store (exec bootstrap_begin a)) = hasBootstrapped (store a)) /\
  (forall (r : Settled) (a : App),
      hasBootstrapped (store (exec (bootstrap false r) a)) = true) /\
  (forall (r : Settled) (a : App),
      hasBootstrapped (store (exec (bootstrap true r) a)) = hasBootstrapped (store a)) /\
  (forall (c1 c2 : bool) (r1 r2 : Settled) (ws1 ws2 : list Write) (a : App),
      hasBootstrapped (store (exec (bootstrap c1 r1) a)) = true ->
      bootstrap c2 r2 = (ws1 ++ ws2)%list ->
      hasBootstrapped (store (exec ws1 (exec (bootstrap c1 r1) a))) = true).
Proof.
  split; [done|]. split; [|split; [done|split; [|split]]].
  - intros ops ws1 ws2 a Hsplit Htrue. rewrite exec_app.
    apply exec_keeps_bootstrapped; [|done].
    pose proof (program_keeps_bootstrapped ops) as Hall.
    rewrite Hsplit in Hall. by apply Forall_app in Hall as [_ ?].
  - intros r a. by destruct r.
  - intros r a. by destruct r.
  - intros c1 c2 r1 r2 ws1 ws2 a Htrue Hsplit.
    apply exec_keeps_bootstrapped; [|done].
    pose proof (writes_keep_bootstrapped (Bootstrap c2 r2)) as Hall.
    simpl in Hall. rewrite Hsplit in Hall. by apply Forall_app in Hall as [? _].
Qed.

(** C7 as it was stated fails: when the effect was cleaned up before the
    refresh call settled, the run returns at [if (cancelled) return] and
    [hasBootstrapped] is still false after the resolution. *)
Lemma hasBootstrapped_not_set_by_cancelled_run :
  ~ (forall (cancelled : bool) (r : Settled) (a : App),
        hasBootstrapped (store (exec (bootstrap cancelled r) a)) = true).
Proof.
  intros H. specialize (H true Failed start). vm_compute in H. discriminate.
Qed.

(** C9, as amended.  [setAuth user t] writes [t] to the token holder and
    then to the store, [clearAuth] writes null to the token holder and
    then to the store, and [setLoading] writes to neither; so as long as
    only the store's actions write the token, the store's [accessToken]
    and [tokenBridge.getAccessToken()] agree after every action. *)
Theorem store_and_bridge_agree_under_store_actions :
  (forall (u : AuthUser) (t : string) (a : App),
      (exists p, setAuth u t = [Bridge (Some t); Store p]) /\
      bridgeToken (exec (setAuth u t) a) = Some t /\
      authStore.accessToken (store (exec (setAuth u t) a)) = Some t) /\
  (forall (a : App),
      (exists p, clearAuth = [Bridge None; Store p]) /\
      bridgeToken (exec clearAuth a) = None /\
      authStore.accessToken (store (exec clearAuth a)) = None) /\
  (forall (v : bool) (a : App),
      bridgeToken (exec (setLoading v) a) = bridgeToken a /\
      authStore.accessToken (store (exec (setLoading v) a)) =
      authStore.accessToken (store a)) /\
  (forall (ops : list Op),
      authStore.accessToken (store (exec (program ops) start)) =
      bridgeToken (exec (program ops) start)).
Proof.
  repeat split; eauto.
  intros ops.
  enough (forall a, agree a -> agree (exec (program ops) a)) as H
      by (apply H; done).
  unfold program. induction ops as [|o ops IH]; intros a Ha; [done|].
  simpl. rewrite exec_app. apply IH. by apply writes_agree.
Qed.

(** C9 as it was stated fails: the refresh coordinator writes the token
    holder alone.  After a login with token T1, a request that meets a 401
    and a refresh that returns T2, a store action ([setLoading]) finds
    T1 in the store and T2 in the token holder. *)
Lemma store_and_bridge_disagree_after_refresh :
  ~ (forall (env : Env) (hs : list Happening) (o : Op),
        authStore.accessToken (store (history env start (hs ++ [StoreOp o]))) =
        bridgeToken (history env start (hs ++ [StoreOp o]))).
Proof.
  intros H.
  specialize (H (mkEnv true (Some "d1") (Some "Linux desktop"))
                [ StoreOp (SetAuth (mkAuthUser "u1" None super_admin) "T1");
                  Network (Net.Call (Some "/admin-monitor/overview") "get" JUndefined ∅);
                  Network (Net.Fails 0 (Net.BadStatus (mkResponse 401 JNull)));
                  Network (Net.RefreshSucceeds 1 "T2") ]
                (SetLoading false)).
  vm_compute in H. discriminate.
Qed.

End StoreClaims.

(** ** The client among its requests *)

Section Counting.
Import Net.

Lemma count_app (p : Effect -> bool) (t1 t2 : list Effect) :
  count p (t1 ++ t2) = count p t1 + count p t2.
Proof. unfold count. by rewrite List.filter_app, length_app. Qed.

Lemma count_replays_absent (id : nat) (f : Waiter -> Config) (qs : list Waiter) :
  id ∉ map resolve qs ->
  count (is_replay_of id) (map (fun q => Replay (resolve q) (f q)) qs) = 0.
Proof.
  unfold count. induction qs as [|q qs IH]; simpl; [done|].
  intros Hni. apply not_elem_of_cons in Hni as [Hne Hni].
  destruct (Nat.eqb_spec (resolve q) id) as [Heq|_]; [by subst|]. auto.
Qed.

Lemma count_replays_present (id : nat) (f : Waiter -> Config) (qs : list Waiter) :
  NoDup (map resolve qs) ->
  id ∈ map resolve qs ->
  count (is_replay_of id) (map (fun q => Replay (resolve q) (f q)) qs) = 1.
Proof.
  induction qs as [|q qs IH]; simpl.
  - intros _ H. by apply elem_of_nil in H.
  - intros [Hq Hnd]%NoDup_cons Hin. unfold count. simpl.
    destruct (Nat.eqb_spec (resolve q) id) as [Heq|Hne].
    + subst id. simpl. f_equal. by apply count_replays_absent.
    + apply elem_of_cons in Hin as [Heq|Hin]; [congruence|]. by apply IH.
Qed.

End Counting.

Section Performing.
Import Net.

Lemma send_all_absent (f : Waiter -> Config) (qs : list Waiter) (m : gmap nat Config) (id : nat) :
  id ∉ map resolve qs -> send_all f qs m !! id = m !! id.
Proof.
  unfold send_all. revert m. induction qs as [|q qs IH]; intros m Hni; [done|].
  simpl in *. apply not_elem_of_cons in Hni as [Hne Hni].
  rewrite IH by done. by rewrite lookup_insert_ne.
Qed.

Lemma send_all_present (f : Waiter -> Config) (qs : list Waiter) (m : gmap nat Config) (q : Waiter) :
  NoDup (map resolve qs) -> q ∈ qs -> send_all f qs m !! resolve q = Some (f q).
Proof.
  unfold send_all. revert m. induction qs as [|q' qs IH]; intros m Hnd Hin.
  - by apply elem_of_nil in Hin.
  - simpl in *. apply NoDup_cons in Hnd as [Hq' Hnd].
    apply elem_of_cons in Hin as [->|Hin]; [|by apply IH].
    fold (send_all f qs (<[resolve q' := f q']> m)).
    rewrite send_all_absent by done. by rewrite lookup_insert_eq.
Qed.

Lemma perform_replays (k : option (nat * Config)) (f : Waiter -> Config)
      (qs : list Waiter) (w : World) :
  foldl (perform k) w (map (fun q => Replay (resolve q) (f q)) qs) =
  mkWorld (client w) (nextId w) (send_all f qs (wire w)) (suspended w)
          (trace w ++ map (fun q => Replay (resolve q) (f q)) qs).
Proof.
  revert w. induction qs as [|q qs IH]; intros w.
  - simpl. rewrite app_nil_r. by destruct w.
  - cbn [map foldl]. rewrite IH. unfold perform, log. simpl.
    by rewrite <- app_assoc.
Qed.

End Performing.

Section Steps.
Import Net.
Variable env : Env.

Lemma perform_quiet (k : option (nat * Config)) (w : World) (effs : list Effect) :
  quiet effs ->
  foldl (perform k) w effs =
  mkWorld (client w) (nextId w) (wire w) (suspended w) (trace w ++ effs).
Proof.
  intros [->| ->]; simpl.
  - rewrite app_nil_r. by destruct w.
  - done.
Qed.

Lemma count_quiet (p : Effect -> bool) (effs : list Effect) :
  quiet effs -> (forall h, p (Navigate h) = false) -> count p effs = 0.
Proof. intros [->| ->] Hp; unfold count; simpl; [done|]. by rewrite Hp. Qed.

Lemma thrown_config (f : Failure) (c : Config) (e : AxiosError) :
  thrown f c = IsAxios e -> config e = c.
Proof. destruct f; simpl; intros [= <-]; done. Qed.

Lemma step_Fails_rejected (w : World) (id : nat) (f : Failure) (c : Config) :
  wire w !! id = Some c ->
  (forall e, thrown f c = IsAxios e -> ~ expired e) ->
  suspended w !! id = None ->
  exists effs, quiet effs /\
    step env w (Fails id f) =
    mkWorld (client w) (nextId w) (delete id (wire w)) (suspended w)
            (trace w ++ effs ++ [Rejected id (thrown f c)]).
Proof.
  intros Hc Hne Hs.
  destruct (onRejected_not_expired env (client w) id _ Hne) as [effs [Heq Hq]].
  exists effs. split; [done|].
  unfold step. rewrite Hc, Heq, Hs, (perform_quiet _ _ _ Hq).
  unfold log. simpl. by rewrite <- app_assoc.
Qed.

Lemma step_Fails_refresh (w : World) (id : nat) (f : Failure) (c : Config)
      (caller : nat) (orig : Config) :
  wire w !! id = Some c ->
  (forall e, thrown f c = IsAxios e -> ~ expired e) ->
  suspended w !! id = Some (caller, orig) ->
  exists effs, quiet effs /\
    step env w (Fails id f) =
    mkWorld (mkState None false []) (nextId w)
            (send_all (resubmitted env (tokenBridge.setAccessToken None (client w)) None)
                      (refreshQueue (client w)) (delete id (wire w)))
            (delete id (suspended w))
            (trace w ++ effs ++
             map (runCallback env (tokenBridge.setAccessToken None (client w)) None)
                 (refreshQueue (client w)) ++
             [Rejected caller (thrown f c)]).
Proof.
  intros Hc Hne Hs.
  destruct (onRejected_not_expired env (client w) id _ Hne) as [effs [Heq Hq]].
  exists effs. split; [done|].
  unfold step. rewrite Hc, Heq, Hs, (perform_quiet _ _ _ Hq).
  unfold onRefreshRejected. cbn [client nextId wire suspended trace].
  cbn [tokenBridge.setAccessToken refreshQueue secureAxios.accessToken].
  rewrite (perform_replays None (resubmitted env (tokenBridge.setAccessToken None (client w)) None)).
  unfold log. simpl. by rewrite <- !app_assoc.
Qed.

Lemma step_Fails_parked (w : World) (id : nat) (f : Failure) (c : Config) (e : AxiosError) :
  wire w !! id = Some c ->
  thrown f c = IsAxios e ->
  expired e ->
  isRefreshing (client w) = true ->
  step env w (Fails id f) =
  mkWorld (mkState (secureAxios.accessToken (client w)) true
                   (refreshQueue (client w) ++ [mkWaiter id (set_retry c)]))
          (nextId w) (delete id (wire w)) (suspended w) (trace w).
Proof.
  intros Hc He Hexp Hbusy. unfold step.
  rewrite Hc, He, (onRejected_expired env _ _ _ Hexp), Hbusy.
  rewrite (thrown_config _ _ _ He). done.
Qed.

Lemma step_Fails_starts (w : World) (id : nat) (f : Failure) (c : Config) (e : AxiosError) :
  wire w !! id = Some c ->
  thrown f c = IsAxios e ->
  expired e ->
  isRefreshing (client w) = false ->
  step env w (Fails id f) =
  let st := mkState (secureAxios.accessToken (client w)) true (refreshQueue (client w)) in
  mkWorld st (S (nextId w))
          (<[nextId w := api env st refreshRequest]> (delete id (wire w)))
          (<[nextId w := (id, set_retry c)]> (suspended w))
          (trace w ++ [Refresh (api env st refreshRequest)]).
Proof.
  intros Hc He Hexp Hidle. unfold step.
  rewrite Hc, He, (onRejected_expired env _ _ _ Hexp), Hidle.
  rewrite (thrown_config _ _ _ He). done.
Qed.

Lemma step_RefreshSucceeds (w : World) (id : nat) (tok : string) (c : Config)
      (caller : nat) (orig : Config) :
  wire w !! id = Some c ->
  suspended w !! id = Some (caller, orig) ->
  step env w (RefreshSucceeds id tok) =
  let st1 := tokenBridge.setAccessToken (Some tok) (client w) in
  let st2 := mkState (Some tok) false [] in
  let sent := api env st2 (set_header "Authorization" (Bearer tok) orig) in
  mkWorld st2 (nextId w)
          (<[caller := sent]>
             (send_all (resubmitted env st1 (Some tok)) (refreshQueue (client w))
                       (delete id (wire w))))
          (delete id (suspended w))
          (trace w ++ map (runCallback env st1 (Some tok)) (refreshQueue (client w))
                 ++ [Replay caller sent]).
Proof.
  intros Hc Hs. unfold step. rewrite Hc, Hs. unfold onRefreshFulfilled.
  cbn [tokenBridge.setAccessToken refreshQueue secureAxios.accessToken].
  rewrite foldl_app.
  rewrite (perform_replays None (resubmitted env (tokenBridge.setAccessToken (Some tok) (client w)) (Some tok))).
  simpl. by rewrite <- !app_assoc.
Qed.

End Steps.

Section Invariant.
Import Net.
Variable env : Env.

Lemma waiting_keep (w w' : World) (caller : nat) (orig : Config) :
  waiting w caller orig ->
  nextId w <= nextId w' ->
  wire w' !! caller = None ->
  count (is_replay_of caller) (trace w') = count (is_replay_of caller) (trace w) ->
  waiting w' caller orig.
Proof.
  intros (Hlt & _ & Hr & Hh & Hc) Hn Hw Ht. unfold waiting.
  rewrite Ht. repeat split; try done. lia.
Qed.

Lemma Inv_boot : Inv boot.
Proof.
  split; simpl; try done.
  - split; [constructor|]. intros q Hq. by apply elem_of_nil in Hq.
  - intros id. unfold count. simpl. lia.
Qed.

Lemma Inv_Call (w : World) u m d h : Inv w -> Inv (step env w (Call u m d h)).
Proof.
  intros I. destruct I as [Iw Ii Ib Iq Io If Iu].
  assert (forall id, count (is_replay_of id)
            (trace w ++ [Issue (nextId w)
               (api env (client w) (mkConfig u m d (Some h) false))]) =
            count (is_replay_of id) (trace w)) as Hcount.
  { intros id. rewrite count_app. unfold count at 2. simpl. lia. }
  split; cbn [step client nextId wire suspended trace].
  - intros id c. destruct (decide (nextId w = id)) as [<-|Hne].
    + rewrite lookup_insert_eq. intros [= <-]. split; [lia|].
      unfold api. by rewrite has_headers_requestInterceptor.
    + rewrite lookup_insert_ne by done. intros Hc.
      destruct (Iw _ _ Hc). split; [lia|done].
  - done.
  - intros Hb. destruct (Ib Hb) as (rid & caller & orig & c & Hs & Hc & Ha & Hrf & Hw & Hp).
    exists rid, caller, orig, c. repeat split; try done.
    + destruct (Iw _ _ Hc). rewrite lookup_insert_ne by lia. done.
    + destruct Hw as (? & ? & ?). simpl. lia.
    + destruct Hw as (? & ? & ?). simpl. rewrite lookup_insert_ne by lia. done.
    + apply Hw.
    + apply Hw.
    + simpl. rewrite Hcount. apply Hw.
  - destruct Iq as [Hnd Hq]. split; [done|]. intros q Hin.
    specialize (Hq q Hin). eapply waiting_keep; [exact Hq|simpl; lia| |].
    + destruct Hq as (? & ? & ?). simpl. rewrite lookup_insert_ne by lia. done.
    + simpl. apply Hcount.
  - intros id. rewrite Hcount. apply Io.
  - intros id c. rewrite Hcount. destruct (decide (nextId w = id)) as [<-|Hne].
    + intros _ _. by apply Iu.
    + rewrite lookup_insert_ne by done. apply If.
  - intros id Hid. rewrite Hcount. apply Iu. lia.
Qed.

Lemma Inv_SetToken (w : World) token : Inv w -> Inv (step env w (SetToken token)).
Proof. intros [Iw Ii Ib Iq Io If Iu]. split; done. Qed.

Lemma Inv_Succeeds (w : World) id r : Inv w -> Inv (step env w (Succeeds id r)).
Proof.
  intros I. unfold step.
  destruct (wire w !! id) as [c|] eqn:Hc; [|done].
  destruct (suspended w !! id) as [k|] eqn:Hs; [done|].
  destruct I as [Iw Ii Ib Iq Io If Iu].
  assert (forall i, count (is_replay_of i) (trace w ++ [Resolved id r]) =
                    count (is_replay_of i) (trace w)) as Hcount.
  { intros i. rewrite count_app. unfold count at 2. simpl. lia. }
  split; cbn [client nextId wire suspended trace].
  - intros i c'. intros [_ H]%lookup_delete_Some. by apply Iw.
  - done.
  - intros Hb. destruct (Ib Hb) as (rid & caller & orig & c' & Hs' & Hc' & Ha & Hrf & Hw & Hp).
    exists rid, caller, orig, c'. repeat split; try done; try apply Hw.
    + rewrite lookup_delete_ne; [done|]. intros <-.
      rewrite Hs', lookup_singleton_eq in Hs. done.
    + simpl. apply lookup_delete_None. right. apply Hw.
    + simpl. rewrite Hcount. apply Hw.
  - destruct Iq as [Hnd Hq]. split; [done|]. intros q Hin.
    specialize (Hq q Hin). eapply waiting_keep; [exact Hq|simpl; lia| |].
    + simpl. apply lookup_delete_None. right. apply Hq.
    + simpl. apply Hcount.
  - intros i. rewrite Hcount. apply Io.
  - intros i c'. rewrite Hcount. intros [_ H]%lookup_delete_Some. by apply If.
  - intros i Hi. rewrite Hcount. by apply Iu.
Qed.


Lemma elem_of_parked (w : World) (id : nat) :
  id ∈ parked w <-> exists q, q ∈ refreshQueue (client w) /\ resolve q = id.
Proof.
  unfold parked. rewrite list_elem_of_In, in_map_iff. split.
  - intros [q [Hq Hin]]. exists q. by rewrite list_elem_of_In.
  - intros [q [Hin Hq]]. exists q. by rewrite <- list_elem_of_In.
Qed.

Lemma resubmitted_has_headers (st : State) (tok : option string) (q : Waiter) :
  has_headers (resubmitted env st tok q) = has_headers (originalRequest q).
Proof.
  unfold resubmitted, api. rewrite has_headers_requestInterceptor.
  case_match; [apply has_headers_set_header|done].
Qed.

Lemma resubmitted_retry (st : State) (tok : option string) (q : Waiter) :
  _retry (resubmitted env st tok q) = _retry (originalRequest q).
Proof.
  unfold resubmitted, api.
  destruct (requestInterceptor_same_request env st
              (if present tok && has_headers (originalRequest q)
               then set_header "Authorization" (Bearer (default "" tok)) (originalRequest q)
               else originalRequest q)) as (_ & _ & _ & ->).
  by case_match.
Qed.

Lemma count_callbacks_absent (w : World) (st : State) (tok : option string) (id : nat) :
  id ∉ parked w ->
  count (is_replay_of id) (map (runCallback env st tok) (refreshQueue (client w))) = 0.
Proof. intros H. by apply (count_replays_absent id (resubmitted env st tok)). Qed.

Lemma count_callbacks_present (w : World) (st : State) (tok : option string) (id : nat) :
  NoDup (parked w) -> id ∈ parked w ->
  count (is_replay_of id) (map (runCallback env st tok) (refreshQueue (client w))) = 1.
Proof. intros Hnd H. by apply (count_replays_present id (resubmitted env st tok)). Qed.

Lemma count_one_replay (id caller : nat) (c : Config) :
  count (is_replay_of id) [Replay caller c] = if decide (caller = id) then 1 else 0.
Proof.
  unfold count. simpl. destruct (Nat.eqb_spec caller id); case_decide; done.
Qed.

(** The wire after a refresh settles: the old requests, and one request
    for each promise that was parked. *)
Lemma released_wire (w : World) (st : State) (tok : option string)
      (m : gmap nat Config) (id : nat) (c : Config) :
  Inv w ->
  (forall i c', m !! i = Some c' -> wire w !! i = Some c') ->
  send_all (resubmitted env st tok) (refreshQueue (client w)) m !! id = Some c ->
  ((id ∉ parked w) /\ wire w !! id = Some c) \/
  ((id ∈ parked w) /\ _retry c = true /\ has_headers c = true /\ id < nextId w).
Proof.
  intros I Hm Hl. destruct (decide (id ∈ parked w)) as [Hin|Hni].
  - right. split; [done|]. apply elem_of_parked in Hin as [q [Hq <-]].
    rewrite send_all_present in Hl; [|apply I|done]. injection Hl as <-.
    destruct (proj2 (inv_queue w I) q Hq) as (Hlt & _ & Hr & Hh & _).
    by rewrite resubmitted_retry, resubmitted_has_headers.
  - left. split; [done|]. rewrite send_all_absent in Hl by done. by apply Hm.
Qed.


Lemma busy_inversion (w : World) (id caller : nat) (orig : Config) :
  Inv w ->
  suspended w !! id = Some (caller, orig) ->
  isRefreshing (client w) = true /\
  suspended w = {[id := (caller, orig)]} /\
  (exists c, wire w !! id = Some c /\ isAuthEndpoint (url c) = true /\ _retry c = false) /\
  waiting w caller orig /\ caller ∉ parked w.
Proof.
  intros I Hs. destruct (isRefreshing (client w)) eqn:Hb.
  - destruct (inv_busy w I Hb) as (rid & caller' & orig' & c & Hs' & Hc & Ha & Hrf & Hw & Hp).
    rewrite Hs' in Hs. apply lookup_singleton_Some in Hs as [-> [= -> ->]].
    repeat split; try done; try apply Hw. by exists c.
  - destruct (inv_idle w I Hb) as [_ He]. rewrite He in Hs. done.
Qed.

Lemma Inv_RefreshSucceeds (w : World) id tok :
  Inv w -> Inv (step env w (RefreshSucceeds id tok)).
Proof.
  intros I.
  destruct (wire w !! id) as [c|] eqn:Hc; [|by unfold step; rewrite Hc].
  destruct (suspended w !! id) as [[caller orig]|] eqn:Hs;
    [|by unfold step; rewrite Hc, Hs].
  rewrite (step_RefreshSucceeds env w id tok c caller orig Hc Hs). cbv zeta.
  destruct (busy_inversion w id caller orig I Hs)
    as (Hb & Hsing & _ & (Hlt & Hwc & Hr & Hh & Hcnt) & Hp).
  set (st1 := tokenBridge.setAccessToken (Some tok) (client w)).
  set (sent := api env (mkState (Some tok) false [])
                   (set_header "Authorization" (Bearer tok) orig)).
  assert (has_headers sent = true /\ _retry sent = true) as [Hsh Hsr].
  { subst sent. unfold api. rewrite has_headers_requestInterceptor, has_headers_set_header.
    split; [done|].
    destruct (requestInterceptor_same_request env (mkState (Some tok) false [])
                (set_header "Authorization" (Bearer tok) orig)) as (_ & _ & _ & ->).
    done. }
  assert (forall i c', delete id (wire w) !! i = Some c' -> wire w !! i = Some c') as Hdel.
  { intros i c' [_ H]%lookup_delete_Some. done. }
  assert (forall i, count (is_replay_of i)
                      (trace w ++ map (runCallback env st1 (Some tok)) (refreshQueue (client w))
                             ++ [Replay caller sent]) =
                    count (is_replay_of i) (trace w) +
                    (if decide (i ∈ parked w) then 1 else 0) +
                    (if decide (caller = i) then 1 else 0)) as Hcount.
  { intros i. rewrite !count_app, count_one_replay.
    destruct (decide (i ∈ parked w)).
    - rewrite count_callbacks_present; [lia|apply I|done].
    - rewrite count_callbacks_absent; [lia|done]. }
  split; cbn [client nextId wire suspended trace isRefreshing refreshQueue].
  - intros i c'. destruct (decide (caller = i)) as [<-|Hne].
    + rewrite lookup_insert_eq. intros [= <-]. done.
    + rewrite lookup_insert_ne by done. intros Hl.
      destruct (released_wire w st1 (Some tok) _ i c' I Hdel Hl)
        as [[_ Hold]|(_ & _ & ? & ?)]; [by apply I|done].
  - intros _. split; [done|]. rewrite Hsing. apply delete_singleton_eq.
  - done.
  - split; [constructor|]. intros q Hq. by apply elem_of_nil in Hq.
  - intros i. rewrite Hcount. repeat case_decide; subst.
    + done.
    + destruct (elem_of_parked w i) as [[q [Hq Hi]] _]; [done|].
      destruct (proj2 (inv_queue w I) q Hq) as (_ & _ & _ & _ & Hzero).
      rewrite Hi in Hzero. lia.
    + lia.
    + pose proof (inv_once w I i). lia.
  - intros i c'. rewrite Hcount. destruct (decide (caller = i)) as [<-|Hne].
    + rewrite lookup_insert_eq. intros [= <-]. congruence.
    + rewrite lookup_insert_ne by done. intros Hl Hf.
      destruct (released_wire w st1 (Some tok) _ i c' I Hdel Hl)
        as [[Hni Hold]|(_ & ? & _)]; [|congruence].
      rewrite (inv_fresh w I i c' Hold Hf). case_decide; [done|lia].
  - intros i Hi. rewrite Hcount, (inv_future w I i Hi).
    repeat case_decide; subst; try lia.
    destruct (elem_of_parked w i) as [[q [Hq Hqi]] _]; [done|].
    destruct (proj2 (inv_queue w I) q Hq) as (? & _). lia.
Qed.


Lemma classify (f : Failure) (c : Config) :
  (exists e, thrown f c = IsAxios e /\ expired e) \/
  (forall e, thrown f c = IsAxios e -> ~ expired e).
Proof.
  destruct (thrown f c) as [v|e]; [by right|].
  destruct (expired_or_not e) as [H|H].
  - left. by exists e.
  - right. by intros e' [= <-].
Qed.

Lemma Inv_Fails_parked (w : World) id f c e :
  Inv w -> wire w !! id = Some c -> thrown f c = IsAxios e -> expired e ->
  isRefreshing (client w) = true ->
  Inv (step env w (Fails id f)).
Proof.
  intros I Hc He Hexp Hb. rewrite (step_Fails_parked env w id f c e Hc He Hexp Hb).
  pose proof (thrown_config f c e He) as Hcfg.
  destruct Hexp as (_ & Hna & Hnr). rewrite Hcfg in Hna, Hnr.
  destruct (inv_wire w I id c Hc) as [Hlt Hh].
  assert (id ∉ parked w) as Hnp.
  { intros [q [Hq Hi]]%elem_of_parked.
    destruct (proj2 (inv_queue w I) q Hq) as (_ & Hn & _). congruence. }
  destruct (inv_busy w I Hb) as (rid & caller & orig & c' & Hs & Hc' & Ha & Hrf & Hw & Hp).
  split; cbn [client nextId wire suspended trace isRefreshing refreshQueue].
  - intros i ci [_ H]%lookup_delete_Some. by apply I.
  - done.
  - intros _. exists rid, caller, orig, c'. repeat split; try done; try apply Hw.
    + rewrite lookup_delete_ne; [done|]. intros <-. congruence.
    + simpl. apply lookup_delete_None. right. apply Hw.
    + unfold parked. simpl. rewrite map_app. simpl.
      intros [H| H]%elem_of_app; [done|].
      apply list_elem_of_singleton in H. subst caller.
      destruct Hw as (_ & Hn & _). congruence.
  - unfold parked. simpl. rewrite map_app. simpl. split.
    + apply NoDup_app. split; [apply I|]. split; [|apply NoDup_singleton].
      intros x Hx ->%list_elem_of_singleton. done.
    + intros q [Hq| ->%list_elem_of_singleton]%elem_of_app.
      * eapply waiting_keep; [by apply I|done| |done].
        simpl. apply lookup_delete_None. right. by apply I.
      * unfold waiting. simpl. rewrite lookup_delete_eq.
        repeat split; try done. by apply (inv_fresh w I id c).
  - apply I.
  - intros i ci [_ H]%lookup_delete_Some. by apply I.
  - apply I.
Qed.

Lemma Inv_Fails_starts (w : World) id f c e :
  Inv w -> wire w !! id = Some c -> thrown f c = IsAxios e -> expired e ->
  isRefreshing (client w) = false ->
  Inv (step env w (Fails id f)).
Proof.
  intros I Hc He Hexp Hb. rewrite (step_Fails_starts env w id f c e Hc He Hexp Hb).
  cbv zeta.
  pose proof (thrown_config f c e He) as Hcfg.
  destruct Hexp as (_ & Hna & Hnr). rewrite Hcfg in Hna, Hnr.
  destruct (inv_wire w I id c Hc) as [Hlt Hh].
  destruct (inv_idle w I Hb) as [Hq Hs].
  set (st := mkState (secureAxios.accessToken (client w)) true (refreshQueue (client w))).
  assert (forall i, count (is_replay_of i) (trace w ++ [Refresh (api env st refreshRequest)]) =
                    count (is_replay_of i) (trace w)) as Hcount.
  { intros i. rewrite count_app. unfold count at 2. simpl. lia. }
  split; cbn [client nextId wire suspended trace isRefreshing refreshQueue].
  - intros i ci. destruct (decide (nextId w = i)) as [<-|Hne].
    + rewrite lookup_insert_eq. intros [= <-]. split; [lia|].
      unfold api. by rewrite has_headers_requestInterceptor.
    + rewrite lookup_insert_ne by done. intros [_ H]%lookup_delete_Some.
      destruct (inv_wire w I i ci H). split; [lia|done].
  - done.
  - intros _. exists (nextId w), id, (set_retry c), (api env st refreshRequest).
    split; [rewrite Hs; apply insert_empty|].
    split; [by rewrite lookup_insert_eq|].
    split.
    { unfold api.
      destruct (requestInterceptor_same_request env st refreshRequest) as (-> & _). done. }
    split.
    { unfold api.
      destruct (requestInterceptor_same_request env st refreshRequest) as (_ & _ & _ & ->).
      done. }
    split.
    + unfold waiting. cbn [nextId wire trace]. rewrite Hcount.
      split; [lia|]. split.
      { rewrite lookup_insert_ne by lia. by rewrite lookup_delete_eq. }
      repeat split; try done. by apply (inv_fresh w I id c).
    + unfold parked. simpl. rewrite Hq. apply not_elem_of_nil.
  - unfold parked. simpl. rewrite Hq. split; [constructor|].
    intros q H. by apply elem_of_nil in H.
  - intros i. rewrite Hcount. apply I.
  - intros i ci. rewrite Hcount. destruct (decide (nextId w = i)) as [<-|Hne].
    + intros _ _. by apply I.
    + rewrite lookup_insert_ne by done. intros [_ H]%lookup_delete_Some. by apply I.
  - intros i Hi. rewrite Hcount. apply I. lia.
Qed.


Lemma count_replay_quiet (i : nat) (effs : list Effect) :
  quiet effs -> count (is_replay_of i) effs = 0.
Proof. intros H. by apply count_quiet. Qed.

Lemma Inv_Fails_rejected (w : World) id f c :
  Inv w -> wire w !! id = Some c ->
  (forall e, thrown f c = IsAxios e -> ~ expired e) ->
  suspended w !! id = None ->
  Inv (step env w (Fails id f)).
Proof.
  intros I Hc Hne Hs.
  destruct (step_Fails_rejected env w id f c Hc Hne Hs) as [effs [Hq ->]].
  assert (forall i, count (is_replay_of i)
                      (trace w ++ effs ++ [Rejected id (thrown f c)]) =
                    count (is_replay_of i) (trace w)) as Hcount.
  { intros i. rewrite !count_app, (count_replay_quiet i effs Hq).
    unfold count at 2. simpl. lia. }
  split; cbn [client nextId wire suspended trace].
  - intros i ci [_ H]%lookup_delete_Some. by apply I.
  - apply I.
  - intros Hb.
    destruct (inv_busy w I Hb) as (rid & caller & orig & c' & Hs' & Hc' & Ha & Hrf & Hw & Hp).
    exists rid, caller, orig, c'. repeat split; try done; try apply Hw.
    + rewrite lookup_delete_ne; [done|]. intros <-.
      rewrite Hs', lookup_singleton_eq in Hs. done.
    + simpl. apply lookup_delete_None. right. apply Hw.
    + simpl. rewrite Hcount. apply Hw.
  - split; [apply I|]. intros q Hin.
    eapply waiting_keep; [by apply I|done| |apply Hcount].
    simpl. apply lookup_delete_None. right. by apply I.
  - intros i. rewrite Hcount. apply I.
  - intros i ci. rewrite Hcount. intros [_ H]%lookup_delete_Some. by apply I.
  - intros i Hi. rewrite Hcount. by apply I.
Qed.

Lemma Inv_Fails_refresh (w : World) id f c caller orig :
  Inv w -> wire w !! id = Some c ->
  (forall e, thrown f c = IsAxios e -> ~ expired e) ->
  suspended w !! id = Some (caller, orig) ->
  Inv (step env w (Fails id f)).
Proof.
  intros I Hc Hne Hs.
  destruct (step_Fails_refresh env w id f c caller orig Hc Hne Hs) as [effs [Hq ->]].
  destruct (busy_inversion w id caller orig I Hs)
    as (Hb & Hsing & _ & (Hlt & Hwc & Hr & Hh & Hcnt) & Hp).
  set (st1 := tokenBridge.setAccessToken None (client w)).
  assert (forall i c', delete id (wire w) !! i = Some c' -> wire w !! i = Some c') as Hdel.
  { intros i c' [_ H]%lookup_delete_Some. done. }
  assert (forall i, count (is_replay_of i)
                      (trace w ++ effs ++
                       map (runCallback env st1 None) (refreshQueue (client w)) ++
                       [Rejected caller (thrown f c)]) =
                    count (is_replay_of i) (trace w) +
                    (if decide (i ∈ parked w) then 1 else 0)) as Hcount.
  { intros i. rewrite !count_app, (count_replay_quiet i effs Hq).
    unfold count at 3. simpl.
    destruct (decide (i ∈ parked w)).
    - rewrite count_callbacks_present; [lia|apply I|done].
    - rewrite count_callbacks_absent; [lia|done]. }
  split; cbn [client nextId wire suspended trace isRefreshing refreshQueue].
  - intros i c' Hl.
    destruct (released_wire w st1 None _ i c' I Hdel Hl)
      as [[_ Hold]|(_ & _ & ? & ?)]; [by apply I|done].
  - intros _. split; [done|]. rewrite Hsing. apply delete_singleton_eq.
  - done.
  - split; [constructor|]. intros q H. by apply elem_of_nil in H.
  - intros i. rewrite Hcount. case_decide.
    + destruct (elem_of_parked w i) as [[q [Hq' Hi]] _]; [done|].
      destruct (proj2 (inv_queue w I) q Hq') as (_ & _ & _ & _ & Hzero).
      rewrite Hi in Hzero. lia.
    + pose proof (inv_once w I i). lia.
  - intros i c' Hl Hf. rewrite Hcount.
    destruct (released_wire w st1 None _ i c' I Hdel Hl)
      as [[Hni Hold]|(_ & ? & _)]; [|congruence].
    rewrite (inv_fresh w I i c' Hold Hf). case_decide; [done|lia].
  - intros i Hi. rewrite Hcount, (inv_future w I i Hi).
    case_decide; [|lia].
    destruct (elem_of_parked w i) as [[q [Hq' Hqi]] _]; [done|].
    destruct (proj2 (inv_queue w I) q Hq') as (? & _). lia.
Qed.

Lemma Inv_step (w : World) (ev : Event) : Inv w -> Inv (step env w ev).
Proof.
  intros I. destruct ev as [u m d h|id r|id tok|id f|token].
  - by apply Inv_Call.
  - by apply Inv_Succeeds.
  - by apply Inv_RefreshSucceeds.
  - destruct (wire w !! id) as [c|] eqn:Hc; [|by unfold step; rewrite Hc].
    destruct (classify f c) as [[e [He Hexp]]|Hne].
    + destruct (isRefreshing (client w)) eqn:Hb.
      * by eapply Inv_Fails_parked.
      * by eapply Inv_Fails_starts.
    + destruct (suspended w !! id) as [[caller orig]|] eqn:Hs.
      * by eapply Inv_Fails_refresh.
      * by eapply Inv_Fails_rejected.
  - by apply Inv_SetToken.
Qed.

Lemma Inv_run (w : World) (evs : list Event) : Inv w -> Inv (run env w evs).
Proof.
  unfold run. revert w. induction evs as [|ev evs IH]; intros w I; [done|].
  simpl. apply IH. by apply Inv_step.
Qed.

End Invariant.

Section Retry.
Import Net.
Variable env : Env.

Lemma onRejected_retried (st : State) (caller : nat) (r : Response) (c : Config) :
  status r = 401%Z -> _retry c = true ->
  onRejected env st caller (IsAxios (mkAxiosError (Some r) c)) =
  (st, [], Reject (IsAxios (mkAxiosError (Some r) c))).
Proof.
  intros H401 Hr. unfold onRejected, refreshPath. cbn [response config].
  rewrite (status_401_not_stepUp r H401), H401, Hr. simpl.
  by destruct (isAuthEndpoint (url c)).
Qed.

Lemma retried_not_suspended (w : World) (id : nat) (c : Config) :
  Inv w -> wire w !! id = Some c -> _retry c = true -> suspended w !! id = None.
Proof.
  intros I Hc Hr. destruct (suspended w !! id) as [[caller orig]|] eqn:Hs; [|done].
  destruct (busy_inversion w id caller orig I Hs) as (_ & _ & [c' (Hc' & _ & Hf)] & _).
  congruence.
Qed.

End Retry.

(** C3. Whatever the screens and the network do, no request is replayed
    more than once.  A request that is out again after its replay carries
    the retry marker; and when a request that carries the marker is answered
    with a 401, the handler rejects its caller with that very error, sends
    nothing (no refresh call, no replay) and leaves flag, queue and token as
    they are. *)
Theorem no_second_replay (env : Env) (evs : list Net.Event) :
  (forall id, Net.count (Net.is_replay_of id) (Net.trace (Net.run env Net.boot evs)) <= 1) /\
  (forall id c,
      Net.wire (Net.run env Net.boot evs) !! id = Some c ->
      Net.count (Net.is_replay_of id) (Net.trace (Net.run env Net.boot evs)) = 1 ->
      _retry c = true) /\
  (forall id c r,
      Net.wire (Net.run env Net.boot evs) !! id = Some c ->
      _retry c = true ->
      status r = 401%Z ->
      Net.step env (Net.run env Net.boot evs) (Net.Fails id (Net.BadStatus r)) =
      Net.mkWorld (Net.client (Net.run env Net.boot evs))
                  (Net.nextId (Net.run env Net.boot evs))
                  (delete id (Net.wire (Net.run env Net.boot evs)))
                  (Net.suspended (Net.run env Net.boot evs))
                  (Net.trace (Net.run env Net.boot evs) ++
                   [Rejected id (IsAxios (mkAxiosError (Some r) c))])).
Proof.
  pose proof (Inv_run env Net.boot evs (Inv_boot)) as I.
  set (w := Net.run env Net.boot evs) in *.
  split; [apply I|]. split.
  - intros id c Hc Hone. destruct (_retry c) eqn:Hr; [done|].
    rewrite (inv_fresh w I id c Hc Hr) in Hone. discriminate.
  - intros id c r Hc Hr H401. unfold Net.step.
    rewrite Hc. cbn [Net.thrown]. rewrite (onRejected_retried env _ _ _ _ H401 Hr).
    rewrite (retried_not_suspended w id c I Hc Hr). done.
Qed.

Section SingleFlight.
Import Net.
Variable env : Env.

Lemma withdraw_absent (xs : list Expiry) (m : gmap nat Config) (i : nat) :
  i ∉ map who xs -> withdraw xs m !! i = m !! i.
Proof.
  unfold withdraw. revert m. induction xs as [|x xs IH]; intros m Hni; [done|].
  simpl in *. apply not_elem_of_cons in Hni as [Hne Hni].
  rewrite IH by done. by rewrite lookup_delete_ne.
Qed.

Lemma withdraw_present (xs : list Expiry) (m : gmap nat Config) (i : nat) :
  i ∈ map who xs -> withdraw xs m !! i = None.
Proof.
  unfold withdraw. revert m. induction xs as [|x xs IH]; intros m Hin.
  - by apply elem_of_nil in Hin.
  - simpl in *. destruct (decide (i ∈ map who xs)) as [Hi|Hni]; [by apply IH|].
    apply elem_of_cons in Hin as [->|Hin]; [|done].
    fold (withdraw xs (delete (who x) m)).
    rewrite withdraw_absent by done. apply lookup_delete_eq.
Qed.

(** While a refresh is in flight, every further token-expired signal is
    parked and sends nothing. *)
Lemma park_all (xs : list Expiry) (w : World) :
  isRefreshing (client w) = true ->
  NoDup (map who xs) ->
  Forall (signals w) xs ->
  run env w (map fails xs) =
  mkWorld (mkState (secureAxios.accessToken (client w)) true
                   (refreshQueue (client w) ++ map waiter_of xs))
          (nextId w) (withdraw xs (wire w)) (suspended w) (trace w).
Proof.
  unfold run. revert w. induction xs as [|x xs IH]; intros w Hb Hnd Hall.
  - simpl. rewrite app_nil_r. destruct w as [[] ? ? ? ?]. simpl in *. by subst.
  - cbn [map foldl]. apply NoDup_cons in Hnd as [Hx Hnd].
    apply Forall_cons in Hall as [[Hc Hexp] Hall].
    change (fails x) with (Fails (who x) (BadStatus (answer x))).
    rewrite (step_Fails_parked env w (who x) (BadStatus (answer x)) (sent x)
               (mkAxiosError (Some (answer x)) (sent x)) Hc eq_refl Hexp Hb).
    rewrite IH; cbn [client isRefreshing nextId wire suspended trace
                     refreshQueue secureAxios.accessToken]; try done.
    + by rewrite <- app_assoc.
    + rewrite Forall_forall in Hall |- *. intros y Hy.
      destruct (Hall y Hy) as [Hcy Hey]. split; [|done]. simpl.
      rewrite lookup_delete_ne; [done|]. intros Heq. apply Hx.
      rewrite Heq. apply list_elem_of_In, in_map, list_elem_of_In. done.
Qed.

End SingleFlight.

Section SingleFlightScenario.
Import Net.
Variable env : Env.

Lemma reachable_Inv (w : World) : reachable env w -> Inv w.
Proof. intros [evs ->]. apply Inv_run, Inv_boot. Qed.

Lemma run_app (w : World) (evs1 evs2 : list Event) :
  run env w (evs1 ++ evs2) = run env (run env w evs1) evs2.
Proof. unfold run. apply foldl_app. Qed.

Lemma who_in (y : Expiry) (xs : list Expiry) : y ∈ xs -> who y ∈ map who xs.
Proof. intros H. apply list_elem_of_In, in_map, list_elem_of_In. done. Qed.

(** The world after the answers to [x :: xs] arrived in an idle world. *)
Lemma after_signals (w0 : World) (x : Expiry) (xs : list Expiry) :
  Inv w0 ->
  isRefreshing (client w0) = false ->
  NoDup (map who (x :: xs)) ->
  Forall (signals w0) (x :: xs) ->
  let st := mkState (secureAxios.accessToken (client w0)) true [] in
  run env w0 (map fails (x :: xs)) =
  mkWorld (mkState (secureAxios.accessToken (client w0)) true (map waiter_of xs))
          (S (nextId w0))
          (withdraw xs (<[nextId w0 := api env st refreshRequest]>
                          (delete (who x) (wire w0))))
          {[nextId w0 := (who x, set_retry (sent x))]}
          (trace w0 ++ [Refresh (api env st refreshRequest)]).
Proof.
  intros I Hidle Hnd Hall st.
  destruct (inv_idle w0 I Hidle) as [Hq Hs].
  apply NoDup_cons in Hnd as [Hx Hnd].
  apply Forall_cons in Hall as [[Hc Hexp] Hall].
  cbn [map]. change (run env w0 (fails x :: map fails xs))
    with (run env (step env w0 (Fails (who x) (BadStatus (answer x)))) (map fails xs)).
  rewrite (step_Fails_starts env w0 (who x) (BadStatus (answer x)) (sent x)
             (mkAxiosError (Some (answer x)) (sent x)) Hc eq_refl Hexp Hidle).
  cbv zeta. rewrite Hq, Hs. fold st.
  rewrite park_all; cbn [client isRefreshing nextId wire suspended trace
                         refreshQueue secureAxios.accessToken]; try done.
  rewrite Forall_forall in Hall |- *. intros y Hy.
  destruct (Hall y Hy) as [Hcy Hey]. split; [|done]. simpl.
  destruct (inv_wire w0 I _ _ Hcy) as [Hlt _].
  rewrite lookup_insert_ne by lia.
  rewrite lookup_delete_ne; [done|]. intros Heq. apply Hx.
  rewrite Heq. by apply who_in.
Qed.

End SingleFlightScenario.

Section SingleFlightClaim.
Import Net.
Variable env : Env.

Lemma count_refresh_callbacks (st : State) (tok : option string) (qs : list Waiter) :
  count is_refresh (map (runCallback env st tok) qs) = 0.
Proof. unfold count. induction qs as [|q qs IH]; simpl; done. Qed.

Lemma map_resolve_waiters (xs : list Expiry) :
  map resolve (map waiter_of xs) = map who xs.
Proof. induction xs as [|x xs IH]; simpl; [done|]. by rewrite IH. Qed.

Lemma renewed_initiator (T : string) (c : Config) :
  T <> "" -> has_headers c = true ->
  renewed T c (api env (mkState (Some T) false [])
                   (set_header "Authorization" (Bearer T) (set_retry c))).
Proof.
  intros HT Hh. unfold renewed, api.
  rewrite requestInterceptor_Authorization
    by (by rewrite has_headers_set_header).
  destruct (requestInterceptor_same_request env (mkState (Some T) false [])
              (set_header "Authorization" (Bearer T) (set_retry c)))
    as (-> & -> & -> & ->).
  simpl. destruct (String.eqb_spec T ""); done.
Qed.

Lemma renewed_waiter (T : string) (st : State) (x : Expiry) :
  T <> "" -> has_headers (sent x) = true ->
  secureAxios.accessToken st = Some T ->
  renewed T (sent x) (resubmitted env st (Some T) (waiter_of x)).
Proof.
  intros HT Hh Htok. unfold renewed, resubmitted, api. simpl.
  destruct (String.eqb_spec T "") as [|_]; [done|]. simpl.
  change (has_headers (set_retry (sent x))) with (has_headers (sent x)).
  rewrite Hh.
  rewrite requestInterceptor_Authorization
    by (by rewrite has_headers_set_header).
  destruct (requestInterceptor_same_request env st
              (set_header "Authorization" (Bearer T) (set_retry (sent x))))
    as (-> & -> & -> & ->).
  rewrite Htok. simpl. destruct (String.eqb_spec T ""); done.
Qed.

End SingleFlightClaim.

(** C1. Take any world the client can reach in which no refresh is in
    flight, and N >= 1 requests [x :: xs] that are out, each answered with a
    token-expired signal.  When the N answers have arrived, in any order,
    exactly one refresh call has been issued, the flag is raised and none of
    the N requests has been replayed.  When that refresh call then succeeds
    with a token T (a string that is not empty), still exactly one refresh
    call has been issued, the token holder holds T with the flag down and
    the queue empty, and each of the N requests has been replayed exactly
    once: as it was, with the retry marker and [Authorization: Bearer T]. *)
Theorem single_flight_refresh
        (env : Env) (w0 : Net.World) (x : Expiry) (xs : list Expiry) (T : string) :
  reachable env w0 ->
  isRefreshing (Net.client w0) = false ->
  NoDup (map who (x :: xs)) ->
  Forall (signals w0) (x :: xs) ->
  T <> "" ->
  (Net.count Net.is_refresh (Net.trace (Net.run env w0 (map fails (x :: xs)))) =
   Net.count Net.is_refresh (Net.trace w0) + 1 /\
   isRefreshing (Net.client (Net.run env w0 (map fails (x :: xs)))) = true /\
   forall y, y ∈ x :: xs ->
     Net.count (Net.is_replay_of (who y))
               (Net.trace (Net.run env w0 (map fails (x :: xs)))) = 0) /\
  (Net.count Net.is_refresh
     (Net.trace (Net.run env w0 (map fails (x :: xs) ++
                                 [Net.RefreshSucceeds (Net.nextId w0) T]))) =
   Net.count Net.is_refresh (Net.trace w0) + 1 /\
   Net.client (Net.run env w0 (map fails (x :: xs) ++
                               [Net.RefreshSucceeds (Net.nextId w0) T])) =
   mkState (Some T) false [] /\
   forall y, y ∈ x :: xs ->
     Net.count (Net.is_replay_of (who y))
       (Net.trace (Net.run env w0 (map fails (x :: xs) ++
                                   [Net.RefreshSucceeds (Net.nextId w0) T]))) = 1 /\
     exists c,
       Replay (who y) c ∈
         Net.trace (Net.run env w0 (map fails (x :: xs) ++
                                    [Net.RefreshSucceeds (Net.nextId w0) T])) /\
       Net.wire (Net.run env w0 (map fails (x :: xs) ++
                                 [Net.RefreshSucceeds (Net.nextId w0) T])) !! who y = Some c /\
       renewed T (sent y) c).
Proof.
  intros Hreach Hidle Hnd Hall HT.
  pose proof (reachable_Inv env w0 Hreach) as I.
  pose proof (after_signals env w0 x xs I Hidle Hnd Hall) as Hmid. cbv zeta in Hmid.
  set (st := mkState (secureAxios.accessToken (Net.client w0)) true []) in *.
  set (rc := api env st refreshRequest) in *.
  assert (forall y, y ∈ x :: xs ->
            Net.wire w0 !! who y = Some (sent y) /\ has_headers (sent y) = true /\
            who y < Net.nextId w0 /\
            Net.count (Net.is_replay_of (who y)) (Net.trace w0) = 0) as Hy.
  { intros y Hin. rewrite Forall_forall in Hall.
    destruct (Hall y Hin) as [Hc (_ & _ & Hr)].
    destruct (inv_wire w0 I _ _ Hc) as [Hlt Hh].
    repeat split; try done. by apply (inv_fresh w0 I _ _ Hc). }
  pose proof Hnd as Hnd'. apply NoDup_cons in Hnd' as [Hx Hndxs]. fold (map who xs) in *.
  split.
  { rewrite Hmid. cbn [Net.trace Net.client isRefreshing]. repeat split.
    - rewrite count_app. unfold Net.count at 2. simpl. done.
    - intros y Hin. rewrite count_app. destruct (Hy y Hin) as (_ & _ & _ & ->).
      unfold Net.count. simpl. done. }
  assert (Net.nextId w0 ∉ map who xs) as Hn.
  { intros Hin. apply list_elem_of_In, in_map_iff in Hin as [y [Hwy Hiy]].
    apply list_elem_of_In in Hiy.
    destruct (Hy y) as (_ & _ & Hlt & _); [by right|]. lia. }
  set (st1 := mkState (Some T) true (map waiter_of xs)).
  set (sx := api env (mkState (Some T) false [])
                 (set_header "Authorization" (Bearer T) (set_retry (sent x)))).
  assert (Net.run env w0 (map fails (x :: xs) ++ [Net.RefreshSucceeds (Net.nextId w0) T]) =
          Net.mkWorld (mkState (Some T) false []) (S (Net.nextId w0))
            (<[who x := sx]>
               (send_all (Net.resubmitted env st1 (Some T)) (map waiter_of xs)
                  (delete (Net.nextId w0)
                     (withdraw xs (<[Net.nextId w0 := rc]> (delete (who x) (Net.wire w0)))))))
            (delete (Net.nextId w0) {[Net.nextId w0 := (who x, set_retry (sent x))]})
            ((Net.trace w0 ++ [Refresh rc]) ++
             map (runCallback env st1 (Some T)) (map waiter_of xs) ++
             [Replay (who x) sx])) as Hfinal.
  { rewrite run_app, Hmid. unfold Net.run. cbn [foldl].
    erewrite (step_RefreshSucceeds env _ (Net.nextId w0) T rc (who x) (set_retry (sent x)));
      [done| |].
    - cbn [Net.wire]. rewrite withdraw_absent by done. by rewrite lookup_insert_eq.
    - cbn [Net.suspended]. by rewrite lookup_singleton_eq. }
  rewrite Hfinal. cbn [Net.client Net.wire Net.trace].
  split; [|split; [done|]].
  { rewrite !count_app, count_refresh_callbacks. unfold Net.count at 2 3. simpl. lia. }
  intros y Hin. destruct (Hy y Hin) as (Hwy & Hhy & Hlt & Hzero).
  apply elem_of_cons in Hin as [->|Hin].
  - split.
    + rewrite !count_app, Hzero, count_one_replay.
      rewrite (count_replays_absent (who x) (Net.resubmitted env st1 (Some T)))
        by (by rewrite map_resolve_waiters).
      unfold Net.count. simpl. by case_decide.
    + exists sx. split; [|split].
      * rewrite !elem_of_app. right. right. by apply list_elem_of_singleton.
      * by rewrite lookup_insert_eq.
      * by apply renewed_initiator.
  - assert (who y ≠ who x) as Hne.
    { intros Heq. apply Hx. rewrite <- Heq. by apply who_in. }
    split.
    + rewrite !count_app, Hzero, count_one_replay.
      rewrite (count_replays_present (who y) (Net.resubmitted env st1 (Some T)));
        [|by rewrite map_resolve_waiters|rewrite map_resolve_waiters; by apply who_in].
      unfold Net.count. simpl. case_decide; [congruence|done].
    + exists (Net.resubmitted env st1 (Some T) (waiter_of y)). split; [|split].
      * rewrite !elem_of_app. right. left.
        apply list_elem_of_In, in_map_iff. exists (waiter_of y).
        split; [done|]. apply in_map, list_elem_of_In. done.
      * rewrite lookup_insert_ne by done.
        apply (send_all_present (Net.resubmitted env st1 (Some T)) (map waiter_of xs) _ (waiter_of y)).
        -- by rewrite map_resolve_waiters.
        -- apply list_elem_of_In, in_map, list_elem_of_In. done.
      * by apply renewed_waiter.
Qed.

Lemma single_flight_refresh_witness :
  Net.count Net.is_refresh
    (Net.trace (Net.run Scenario.env Scenario.w0
                        (map fails [Scenario.A; Scenario.B; Scenario.C] ++
                         [Net.RefreshSucceeds (Net.nextId Scenario.w0) "T2"]))) =
  Net.count Net.is_refresh (Net.trace Scenario.w0) + 1.
Proof.
  refine (proj1 (proj2 (single_flight_refresh Scenario.env Scenario.w0 Scenario.A
                          [Scenario.B; Scenario.C] "T2" _ _ _ _ _))).
  - exists Scenario.calls. reflexivity.
  - reflexivity.
  - vm_compute. apply (bool_decide_unpack _). vm_compute. exact I.
  - repeat constructor; vm_compute; eauto.
  - discriminate.
Defined.

Section RefreshFailure.
Import Net.
Variable env : Env.

Lemma count_rejection_callbacks (i : nat) (st : State) (tok : option string) (qs : list Waiter) :
  count (is_rejection_of i) (map (runCallback env st tok) qs) = 0.
Proof. unfold count. induction qs as [|q qs IH]; simpl; done. Qed.

Lemma refresh_call_not_expired (f : Failure) (st : State) (e : AxiosError) :
  thrown f (api env st refreshRequest) = IsAxios e -> ~ expired e.
Proof.
  intros He (_ & Ha & _). rewrite (thrown_config _ _ _ He) in Ha.
  unfold api in Ha.
  destruct (requestInterceptor_same_request env st refreshRequest) as (Hu & _).
  rewrite Hu in Ha. discriminate.
Qed.

(** What the code does when the refresh call fails, in general: the token
    holder is emptied, the request that started the refresh is rejected
    with the failure of the refresh call, and every queued request is sent
    once more, with the retry marker and otherwise as it was, and is not
    rejected. *)
Lemma refresh_failure_in_general
      (w0 : World) (x : Expiry) (xs : list Expiry) (f : Failure) :
  reachable env w0 ->
  isRefreshing (client w0) = false ->
  NoDup (map who (x :: xs)) ->
  Forall (signals w0) (x :: xs) ->
  client (run env w0 (map fails (x :: xs) ++ [Fails (nextId w0) f])) =
  mkState None false [] /\
  Rejected (who x)
           (thrown f (api env (mkState (secureAxios.accessToken (client w0)) true [])
                          refreshRequest)) ∈
    trace (run env w0 (map fails (x :: xs) ++ [Fails (nextId w0) f])) /\
  forall y, y ∈ xs ->
    count (is_replay_of (who y))
          (trace (run env w0 (map fails (x :: xs) ++ [Fails (nextId w0) f]))) = 1 /\
    count (is_rejection_of (who y))
          (trace (run env w0 (map fails (x :: xs) ++ [Fails (nextId w0) f]))) =
    count (is_rejection_of (who y)) (trace w0) /\
    wire (run env w0 (map fails (x :: xs) ++ [Fails (nextId w0) f])) !! who y =
    Some (api env (mkState None true (map waiter_of xs)) (set_retry (sent y))).
Proof.
  intros Hreach Hidle Hnd Hall.
  pose proof (reachable_Inv env w0 Hreach) as I.
  pose proof (after_signals env w0 x xs I Hidle Hnd Hall) as Hmid. cbv zeta in Hmid.
  set (st := mkState (secureAxios.accessToken (client w0)) true []) in *.
  set (rc := api env st refreshRequest) in *.
  assert (forall y, y ∈ x :: xs ->
            wire w0 !! who y = Some (sent y) /\ who y < nextId w0 /\
            count (is_replay_of (who y)) (trace w0) = 0) as Hy.
  { intros y Hin. rewrite Forall_forall in Hall.
    destruct (Hall y Hin) as [Hc (_ & _ & Hr)].
    destruct (inv_wire w0 I _ _ Hc) as [Hlt Hh].
    repeat split; try done. by apply (inv_fresh w0 I _ _ Hc). }
  pose proof Hnd as Hnd'. apply NoDup_cons in Hnd' as [Hx Hndxs]. fold (map who xs) in *.
  assert (nextId w0 ∉ map who xs) as Hn.
  { intros Hin. apply list_elem_of_In, in_map_iff in Hin as [y [Hwy Hiy]].
    apply list_elem_of_In in Hiy.
    destruct (Hy y) as (_ & Hlt & _); [by right|]. lia. }
  set (st1 := mkState None true (map waiter_of xs)).
  assert (exists effs, quiet effs /\
          run env w0 (map fails (x :: xs) ++ [Fails (nextId w0) f]) =
          mkWorld (mkState None false []) (S (nextId w0))
            (send_all (resubmitted env st1 None) (map waiter_of xs)
               (delete (nextId w0)
                  (withdraw xs (<[nextId w0 := rc]> (delete (who x) (wire w0))))))
            (delete (nextId w0) {[nextId w0 := (who x, set_retry (sent x))]})
            ((trace w0 ++ [Refresh rc]) ++ effs ++
             map (runCallback env st1 None) (map waiter_of xs) ++
             [Rejected (who x) (thrown f rc)])) as (effs & Hq & Hfinal).
  { rewrite run_app, Hmid. unfold run. cbn [foldl].
    edestruct (step_Fails_refresh env) as [effs [Hq ->]]; [| |by cbn; rewrite lookup_singleton_eq|].
    - cbn [wire]. rewrite withdraw_absent by done. by rewrite lookup_insert_eq.
    - apply refresh_call_not_expired.
    - exists effs. split; [done|]. done. }
  rewrite Hfinal. cbn [client wire trace]. split; [done|]. split.
  { rewrite !elem_of_app. right. right. right. by apply list_elem_of_singleton. }
  intros y Hin. destruct (Hy y) as (Hwy & Hlt & Hzero); [by right|].
  assert (who y ≠ who x) as Hne.
  { intros Heq. apply Hx. rewrite <- Heq. by apply who_in. }
  split; [|split].
  - rewrite !count_app, Hzero, (count_replay_quiet _ effs Hq).
    rewrite (count_replays_present (who y) (resubmitted env st1 None));
      [|by rewrite map_resolve_waiters|rewrite map_resolve_waiters; by apply who_in].
    unfold count. simpl. done.
  - rewrite !count_app, count_rejection_callbacks.
    rewrite (count_quiet _ effs Hq) by done.
    unfold count at 2 3. simpl.
    destruct (Nat.eqb_spec (who x) (who y)); [congruence|]. simpl. lia.
  - apply (send_all_present (resubmitted env st1 None) (map waiter_of xs) _ (waiter_of y)).
    + by rewrite map_resolve_waiters.
    + apply list_elem_of_In, in_map, list_elem_of_In. done.
Qed.

End RefreshFailure.

(** C2, on the code.  A, B and C are answered with 401 and the refresh call
    fails.  The token holder is emptied and A, which started the refresh, is
    rejected with the refresh failure; but B and C, which were queued, are
    not rejected: each is sent again, still carrying [Bearer T1], and waits
    for the answer to that request. *)
Theorem refresh_failure_resubmits_the_queue :
  tokenBridge.getAccessToken
    (Net.client (Net.run Scenario.env Net.boot Scenario.refresh_fails)) = None /\
  Rejected 0 Scenario.refreshErr ∈
    Net.trace (Net.run Scenario.env Net.boot Scenario.refresh_fails) /\
  Forall (fun y =>
            Net.count (Net.is_rejection_of (who y))
                      (Net.trace (Net.run Scenario.env Net.boot Scenario.refresh_fails)) = 0 /\
            Net.count (Net.is_replay_of (who y))
                      (Net.trace (Net.run Scenario.env Net.boot Scenario.refresh_fails)) = 1 /\
            exists c,
              Net.wire (Net.run Scenario.env Net.boot Scenario.refresh_fails) !! who y = Some c /\
              header "Authorization" c = Some (Bearer "T1") /\
              url c = url (sent y))
         [Scenario.B; Scenario.C].
Proof.
  split; [reflexivity|]. split.
  - apply (list_elem_of_lookup_2 _ 6). vm_compute. reflexivity.
  - repeat constructor; eexists; repeat split; vm_compute; reflexivity.
Qed.

Section StaleToken.
Import Net.
Variable env : Env.

(** What the replays of a failed refresh carry, in general: the token
    holder is empty when the queued requests are sent again, the request
    interceptor runs on them and attaches nothing, and each of them leaves
    with the [Authorization] header of its first sending. *)
Lemma replay_after_failure_in_general
      (w0 : World) (x : Expiry) (xs : list Expiry) (f : Failure) :
  reachable env w0 ->
  isRefreshing (client w0) = false ->
  NoDup (map who (x :: xs)) ->
  Forall (signals w0) (x :: xs) ->
  secureAxios.accessToken
    (client (run env w0 (map fails (x :: xs) ++ [Fails (nextId w0) f]))) = None /\
  forall y, y ∈ xs ->
    exists st c,
      secureAxios.accessToken st = None /\
      c = requestInterceptor env st (set_retry (sent y)) /\
      wire (run env w0 (map fails (x :: xs) ++ [Fails (nextId w0) f])) !! who y = Some c /\
      header "Authorization" c = header "Authorization" (sent y).
Proof.
  intros Hreach Hidle Hnd Hall.
  destruct (refresh_failure_in_general env w0 x xs f Hreach Hidle Hnd Hall)
    as (Hcl & _ & Hys).
  split; [by rewrite Hcl|].
  intros y Hy. destruct (Hys y Hy) as (_ & _ & Hwire).
  exists (mkState None true (map waiter_of xs)),
         (api env (mkState None true (map waiter_of xs)) (set_retry (sent y))).
  split; [done|]. split; [done|]. split; [done|].
  unfold api. rewrite Forall_forall in Hall.
  destruct (Hall y) as [Hc _]; [by right|].
  destruct (inv_wire w0 (reachable_Inv env w0 Hreach) _ _ Hc) as [_ Hh].
  by rewrite requestInterceptor_Authorization.
Qed.

End StaleToken.

(** C6, on the code.  The request interceptor runs on every request, but it
    only ever adds a bearer header.  A, B and C are sent while T1 is held,
    are answered with 401, and the refresh call fails: the token holder is
    emptied, and B and C are then sent again.  The interceptor runs on
    these replays with no token held and attaches nothing, so each leaves
    with [Authorization: Bearer T1], the token captured when it was first
    sent, while no token is held at all. *)
Theorem replay_after_failed_refresh_carries_the_old_token :
  secureAxios.accessToken
    (Net.client (Net.run Scenario.env Net.boot Scenario.refresh_fails)) = None /\
  Forall (fun y =>
            exists st c,
              secureAxios.accessToken st = None /\
              c = requestInterceptor Scenario.env st (set_retry (sent y)) /\
              Issue (who y) (sent y) ∈
                Net.trace (Net.run Scenario.env Net.boot Scenario.refresh_fails) /\
              header "Authorization" (sent y) = Some "Bearer T1" /\
              Replay (who y) c ∈
                Net.trace (Net.run Scenario.env Net.boot Scenario.refresh_fails) /\
              Net.wire (Net.run Scenario.env Net.boot Scenario.refresh_fails) !! who y =
              Some c /\
              header "Authorization" c = Some "Bearer T1")
         [Scenario.B; Scenario.C].
Proof.
  split; [reflexivity|].
  repeat constructor.
  - exists (mkState None true [waiter_of Scenario.B; waiter_of Scenario.C]). eexists.
    split; [reflexivity|]. split; [reflexivity|]. split.
    { apply (list_elem_of_lookup_2 _ 1). vm_compute. reflexivity. }
    split; [vm_compute; reflexivity|]. split.
    { apply (list_elem_of_lookup_2 _ 4). vm_compute. reflexivity. }
    split; vm_compute; reflexivity.
  - exists (mkState None true [waiter_of Scenario.B; waiter_of Scenario.C]). eexists.
    split; [reflexivity|]. split; [reflexivity|]. split.
    { apply (list_elem_of_lookup_2 _ 2). vm_compute. reflexivity. }
    split; [vm_compute; reflexivity|]. split.
    { apply (list_elem_of_lookup_2 _ 5). vm_compute. reflexivity. }
    split; vm_compute; reflexivity.
Qed.

(** The replay of A is answered with 401 once more: A is rejected with that
    error; there was one refresh call and one replay, and nothing is left
    on the wire or in the queue. *)
Example second_401_is_terminal :
  Net.count Net.is_refresh (Net.trace (Net.run Scenario.env Net.boot Scenario.second_401)) = 1 /\
  Net.count (Net.is_replay_of 0)
            (Net.trace (Net.run Scenario.env Net.boot Scenario.second_401)) = 1 /\
  Net.count (Net.is_rejection_of 0)
            (Net.trace (Net.run Scenario.env Net.boot Scenario.second_401)) = 1 /\
  Net.wire (Net.run Scenario.env Net.boot Scenario.second_401) !! 0 = None /\
  Net.client (Net.run Scenario.env Net.boot Scenario.second_401) = mkState (Some "T2") false [].
Proof. repeat split; vm_compute; reflexivity. Qed.

(** * Further properties *)

(** X1. At every moment at most one refresh call is out, and the flag says
    whether one is: with the flag down the queue is empty and no handler is
    suspended; with the flag up exactly one handler is suspended, the
    refresh call it waits for is on the wire and is addressed to an
    authentication endpoint.  No promise waits in the queue twice. *)
Theorem one_refresh_in_flight (env : Env) (evs : list Net.Event) :
  size (Net.suspended (Net.run env Net.boot evs)) =
  (if isRefreshing (Net.client (Net.run env Net.boot evs)) then 1 else 0) /\
  (isRefreshing (Net.client (Net.run env Net.boot evs)) = false ->
   refreshQueue (Net.client (Net.run env Net.boot evs)) = []) /\
  (forall rid caller orig,
      Net.suspended (Net.run env Net.boot evs) !! rid = Some (caller, orig) ->
      exists c, Net.wire (Net.run env Net.boot evs) !! rid = Some c /\
                isAuthEndpoint (url c) = true /\
                Net.wire (Net.run env Net.boot evs) !! caller = None /\
                _retry orig = true) /\
  NoDup (Net.parked (Net.run env Net.boot evs)).
Proof.
  pose proof (Inv_run env Net.boot evs Inv_boot) as I.
  set (w := Net.run env Net.boot evs) in *.
  split; [|split; [|split]].
  - destruct (isRefreshing (Net.client w)) eqn:Hb.
    + destruct (inv_busy w I Hb) as (rid & caller & orig & c & -> & _).
      apply map_size_singleton.
    + destruct (inv_idle w I Hb) as [_ ->]. apply map_size_empty.
  - intros Hb. by destruct (inv_idle w I Hb).
  - intros rid caller orig Hs.
    destruct (busy_inversion w rid caller orig I Hs)
      as (_ & _ & (c & Hc & Ha & _) & (_ & Hw & Hr & _) & _).
    by exists c.
  - apply I.
Qed.

(** X2. The handler touches the module state only for a token-expired
    signal.  Any other error (not an axios error, no response, a status
    other than 401, a 401 on an authentication endpoint or on a request
    that was already retried) is rejected as it came, with the state
    untouched; the only thing the handler may do besides is the step-up
    redirect. *)
Theorem handler_acts_only_on_expiry
        (env : Env) (st : State) (caller : nat) (error : Thrown) :
  (forall e, error = IsAxios e -> ~ expired e) ->
  exists effs,
    onRejected env st caller error = (st, effs, Reject error) /\
    (effs = [] \/ effs = [Navigate "/god/step-up"]).
Proof. apply onRejected_not_expired. Qed.

Lemma handler_acts_only_on_expiry_witness :
  exists effs,
    onRejected Scenario.env Scenario.holding 5
      (IsAxios (mkAxiosError (Some (mkResponse 500 JNull))
                 (mkConfig (Some "/admin-monitor/overview") "get" JUndefined (Some ∅) false))) =
    (Scenario.holding, effs,
     Reject (IsAxios (mkAxiosError (Some (mkResponse 500 JNull))
                 (mkConfig (Some "/admin-monitor/overview") "get" JUndefined (Some ∅) false)))) /\
    (effs = [] \/ effs = [Navigate "/god/step-up"]).
Proof.
  apply handler_acts_only_on_expiry.
  intros e [= <-] [[r [[= <-] H]] _]. discriminate.
Defined.

(** X3. The step-up test succeeds exactly for a status 403 whose body is an
    object with a truthy [stepUp] property; a null body, an array, a string
    or a number never passes, and neither does a falsy flag. *)
Theorem isStepUp_exactly (r : Response) :
  isStepUp r = true <->
  status r = 403%Z /\
  exists props v, body r = JObject props /\ assoc "stepUp" props = Some v /\ truthy v = true.
Proof.
  unfold isStepUp. split.
  - intros H. repeat (apply andb_true_iff in H as [H ?]).
    apply Z.eqb_eq in H. split; [done|].
    destruct (body r) as [| |b|z|s|items|props]; try done.
    simpl in *. destruct (assoc "stepUp" props) as [v|] eqn:Hv; [|done].
    by exists props, v.
  - intros [H403 (props & v & Hb & Hv & Ht)].
    rewrite H403, Hb. simpl. by rewrite Hv.
Qed.

(** ** More on the request decorator *)

(** X4. Decorating twice is decorating once: a request that passes the
    request interceptor again under the same token and surroundings, as a
    replay does, leaves as it left the first time. *)
Theorem requestInterceptor_idempotent (env : Env) (st : State) (c : Config) :
  requestInterceptor env st (requestInterceptor env st c) = requestInterceptor env st c.
Proof.
  destruct c as [u m d [h|] r]; [|by unfold requestInterceptor; repeat case_match].
  unfold requestInterceptor.
  destruct (present (tokenBridge.getAccessToken st)), (window env),
           (present (deviceId env)), (present (deviceLabel env));
    unfold set_header, has_headers; simpl; try done;
    do 2 f_equal; apply map_eq; intros k;
    rewrite ?lookup_insert; repeat case_decide; congruence.
Qed.

(** X5. The interceptor writes three headers at most: any other header of
    the request leaves as the caller set it, and a request without a
    headers object still has none. *)
Theorem requestInterceptor_keeps_other_headers
        (env : Env) (st : State) (c : Config) (k : string) :
  k <> "Authorization" -> k <> "x-device-id" -> k <> "x-device-label" ->
  header k (requestInterceptor env st c) = header k c /\
  has_headers (requestInterceptor env st c) = has_headers c.
Proof.
  intros H1 H2 H3. split; [|apply has_headers_requestInterceptor].
  destruct c as [u m d [h|] r]; [|by unfold requestInterceptor; repeat case_match].
  unfold requestInterceptor.
  destruct (present (tokenBridge.getAccessToken st)), (window env),
           (present (deviceId env)), (present (deviceLabel env));
    unfold header, set_header, has_headers; simpl; try done;
    rewrite ?lookup_insert_ne by done; done.
Qed.

Lemma requestInterceptor_keeps_other_headers_witness :
  header "Accept" (requestInterceptor Scenario.env Scenario.holding
                     (mkConfig (Some "/admin-monitor/overview") "get" JUndefined
                               (Some {["Accept" := "application/json"]}) false)) =
  Some "application/json".
Proof.
  refine (eq_trans (proj1 (requestInterceptor_keeps_other_headers
                             Scenario.env Scenario.holding _ "Accept" _ _ _)) _);
    [discriminate | discriminate | discriminate | reflexivity].
Defined.

(** ** More on the refresh coordinator *)

Section RefreshCalls.
Import Net.
Variable env : Env.

Lemma expired_is_401 (f : Failure) (c : Config) (e : AxiosError) (id : nat) :
  thrown f c = IsAxios e -> expired e -> is_401 (Fails id f) = true.
Proof.
  intros He [[r [Hr H401]] _]. destruct f as [|r'|v]; simpl in *.
  - injection He as <-. discriminate.
  - injection He as <-. simpl in Hr. injection Hr as ->. by apply Z.eqb_eq.
  - discriminate.
Qed.

Lemma count_refresh_quiet (effs : list Effect) : quiet effs -> count is_refresh effs = 0.
Proof. intros H. by apply count_quiet. Qed.

Lemma refresh_calls_step (w : World) (ev : Event) :
  count is_refresh (trace (step env w ev)) <=
  count is_refresh (trace w) + (if is_401 ev then 1 else 0).
Proof.
  destruct ev as [u m d h|id r|id tok|id f|token].
  - simpl. rewrite count_app. unfold count at 2. simpl. lia.
  - unfold step.
    destruct (wire w !! id) as [c|]; [|simpl; lia].
    destruct (suspended w !! id) as [k|]; simpl; [lia|].
    rewrite count_app. unfold count at 2. simpl. lia.
  - destruct (wire w !! id) as [c|] eqn:Hc; [|unfold step; rewrite Hc; lia].
    destruct (suspended w !! id) as [[caller orig]|] eqn:Hs;
      [|unfold step; rewrite Hc, Hs; lia].
    rewrite (step_RefreshSucceeds env w id tok c caller orig Hc Hs). simpl.
    rewrite !count_app, count_refresh_callbacks. unfold count at 2. simpl. lia.
  - destruct (wire w !! id) as [c|] eqn:Hc; [|unfold step; rewrite Hc; lia].
    destruct (classify f c) as [[e [He Hexp]]|Hne].
    + rewrite (expired_is_401 f c e id He Hexp).
      destruct (isRefreshing (client w)) eqn:Hb.
      * rewrite (step_Fails_parked env w id f c e Hc He Hexp Hb). simpl. lia.
      * rewrite (step_Fails_starts env w id f c e Hc He Hexp Hb). simpl.
        rewrite count_app. unfold count at 2. simpl. lia.
    + destruct (suspended w !! id) as [[caller orig]|] eqn:Hs.
      * destruct (step_Fails_refresh env w id f c caller orig Hc Hne Hs) as [effs [Hq ->]].
        simpl. rewrite !count_app, count_refresh_callbacks, (count_refresh_quiet _ Hq).
        unfold count at 2. simpl. lia.
      * destruct (step_Fails_rejected env w id f c Hc Hne Hs) as [effs [Hq ->]].
        simpl. rewrite !count_app, (count_refresh_quiet _ Hq).
        unfold count at 2. simpl. lia.
  - simpl. lia.
Qed.

Lemma refresh_calls_run (w : World) (evs : list Event) :
  count is_refresh (trace (run env w evs)) <=
  count is_refresh (trace w) + length (List.filter is_401 evs).
Proof.
  unfold run. revert w. induction evs as [|ev evs IH]; intros w; simpl; [lia|].
  specialize (IH (step env w ev)). pose proof (refresh_calls_step w ev).
  destruct (is_401 ev); simpl; lia.
Qed.

End RefreshCalls.

(** X6. Refresh calls are made for 401 answers only: in any run, the number
    of refresh calls issued is at most the number of 401 answers received.
    In particular, as long as no request is answered with 401, whatever
    else succeeds or fails, the client never calls the refresh endpoint. *)
Theorem refresh_only_after_401 (env : Env) (evs : list Net.Event) :
  Net.count Net.is_refresh (Net.trace (Net.run env Net.boot evs)) <=
  length (List.filter is_401 evs).
Proof. apply (refresh_calls_run env Net.boot evs). Qed.

Section Settling.
Import Net.
Variable env : Env.

Lemma parked_released (w : World) (st : State) (tok : option string)
      (m : gmap nat Config) (id : nat) :
  Inv w -> id ∈ parked w ->
  is_Some (send_all (resubmitted env st tok) (refreshQueue (client w)) m !! id).
Proof.
  intros I [q [Hq <-]]%elem_of_parked.
  rewrite send_all_present; [done|apply I|done].
Qed.

Lemma parked_replayed_once (w : World) (id : nat) :
  Inv w -> id ∈ parked w -> count (is_replay_of id) (trace w) = 0.
Proof.
  intros I [q [Hq <-]]%elem_of_parked.
  by destruct (proj2 (inv_queue w I) q Hq) as (_ & _ & _ & _ & ?).
Qed.

Lemma auth_endpoint_not_expired (f : Failure) (c : Config) (e : AxiosError) :
  isAuthEndpoint (url c) = true -> thrown f c = IsAxios e -> ~ expired e.
Proof.
  intros Ha He (_ & Hn & _). rewrite (thrown_config _ _ _ He) in Hn. congruence.
Qed.

End Settling.

(** X7. Whenever the refresh call settles, the cycle ends and the queue is
    drained.  If it succeeds with T, the token holder holds T, the flag is
    down, the queue is empty, and the request that started the refresh and
    every queued request are on the wire again, each replayed once.  If it
    fails, in whatever way, the token holder is empty, the flag is down,
    the queue is empty, the request that started the refresh is rejected,
    and every queued request is on the wire again.  In neither case is a
    further refresh call issued. *)
Theorem refresh_settles_and_drains
        (env : Env) (w : Net.World) (rid caller : nat) (orig : Config) :
  reachable env w ->
  Net.suspended w !! rid = Some (caller, orig) ->
  (forall T,
      Net.client (Net.step env w (Net.RefreshSucceeds rid T)) = mkState (Some T) false [] /\
      Net.suspended (Net.step env w (Net.RefreshSucceeds rid T)) = ∅ /\
      Net.count Net.is_refresh (Net.trace (Net.step env w (Net.RefreshSucceeds rid T))) =
      Net.count Net.is_refresh (Net.trace w) /\
      forall id, id = caller \/ id ∈ Net.parked w ->
        is_Some (Net.wire (Net.step env w (Net.RefreshSucceeds rid T)) !! id) /\
        Net.count (Net.is_replay_of id)
                  (Net.trace (Net.step env w (Net.RefreshSucceeds rid T))) = 1) /\
  (forall f,
      Net.client (Net.step env w (Net.Fails rid f)) = mkState None false [] /\
      Net.suspended (Net.step env w (Net.Fails rid f)) = ∅ /\
      Net.count Net.is_refresh (Net.trace (Net.step env w (Net.Fails rid f))) =
      Net.count Net.is_refresh (Net.trace w) /\
      Net.count (Net.is_rejection_of caller) (Net.trace (Net.step env w (Net.Fails rid f))) =
      Net.count (Net.is_rejection_of caller) (Net.trace w) + 1 /\
      Net.wire (Net.step env w (Net.Fails rid f)) !! caller = None /\
      forall id, id ∈ Net.parked w ->
        is_Some (Net.wire (Net.step env w (Net.Fails rid f)) !! id) /\
        Net.count (Net.is_replay_of id) (Net.trace (Net.step env w (Net.Fails rid f))) = 1).
Proof.
  intros Hreach Hs. pose proof (reachable_Inv env w Hreach) as I.
  destruct (busy_inversion w rid caller orig I Hs)
    as (Hb & Hsing & (c & Hc & Ha & _) & (Hlt & Hwc & Hr & Hh & Hcnt) & Hp).
  split.
  - intros T. rewrite (step_RefreshSucceeds env w rid T c caller orig Hc Hs). cbv zeta.
    cbn [Net.client Net.suspended Net.trace Net.wire].
    split; [done|]. split; [rewrite Hsing; apply delete_singleton_eq|]. split.
    { rewrite !count_app, count_refresh_callbacks. unfold Net.count at 2. simpl. lia. }
    intros id Hid. rewrite !count_app, count_one_replay.
    destruct Hid as [->|Hid].
    + rewrite lookup_insert_eq. split; [done|].
      rewrite Hcnt, (count_callbacks_absent env w) by done. by case_decide.
    + assert (caller <> id) as Hne by (intros ->; done).
      rewrite lookup_insert_ne by done. split; [by apply parked_released|].
      rewrite (parked_replayed_once w id I Hid).
      rewrite (count_callbacks_present env w); [|apply I|done].
      case_decide; [done|lia].
  - intros f.
    destruct (step_Fails_refresh env w rid f c caller orig Hc
                (fun e => auth_endpoint_not_expired f c e Ha) Hs) as [effs [Hq ->]].
    cbn [Net.client Net.suspended Net.trace Net.wire].
    split; [done|]. split; [rewrite Hsing; apply delete_singleton_eq|]. split.
    { rewrite !count_app, count_refresh_callbacks, (count_refresh_quiet _ Hq).
      unfold Net.count at 2. simpl. lia. }
    split.
    { rewrite !count_app, count_rejection_callbacks, (count_quiet _ effs Hq) by done.
      unfold Net.count at 2. simpl. rewrite Nat.eqb_refl. simpl. lia. }
    split.
    { rewrite send_all_absent by done. apply lookup_delete_None. by right. }
    intros id Hid. split; [by apply parked_released|].
    rewrite !count_app, (count_replay_quiet _ effs Hq), (parked_replayed_once w id I Hid).
    rewrite (count_callbacks_present env w); [|apply I|done].
    unfold Net.count. simpl. lia.
Qed.

Lemma refresh_settles_and_drains_witness :
  Net.client (Net.step Scenario.env
                (Net.run Scenario.env Scenario.w0 (map fails [Scenario.A; Scenario.B; Scenario.C]))
                (Net.RefreshSucceeds 3 "T2")) = mkState (Some "T2") false [].
Proof.
  refine (proj1 (proj1 (refresh_settles_and_drains Scenario.env
            (Net.run Scenario.env Scenario.w0 (map fails [Scenario.A; Scenario.B; Scenario.C]))
            3 0 (set_retry (sent Scenario.A)) _ _) "T2")).
  - exists (Scenario.calls ++ map fails [Scenario.A; Scenario.B; Scenario.C])%list.
    vm_compute. reflexivity.
  - vm_compute. reflexivity.
Defined.

(** ** More on the classification of addresses *)

Lemma append_assoc (a b c : string) : (a +:+ b) +:+ c = a +:+ (b +:+ c).
Proof.
  induction a as [|x a IH]; [reflexivity|].
  change (String x ((a +:+ b) +:+ c) = String x (a +:+ b +:+ c)).
  by f_equal.
Qed.

Lemma occurs_in_context (frag u a b : string) :
  occurs_in frag u -> occurs_in frag (a +:+ u +:+ b).
Proof.
  intros [x [y ->]]. exists (a +:+ x), (y +:+ b).
  by rewrite !append_assoc.
Qed.

(** X8. The test looks for the fragments anywhere in the address: an
    address that counts as an authentication endpoint still does with any
    text in front of it (a base URL) and behind it (a sub-path, a query
    string).  So every address that merely contains one of the fragments,
    wherever, is exempt from the refresh. *)
Theorem isAuthEndpoint_anywhere (a u b : string) :
  isAuthEndpoint (Some u) = true ->
  isAuthEndpoint (Some (a +:+ u +:+ b)) = true.
Proof.
  rewrite !isAuthEndpoint_authEndpoint.
  intros [u' [[= <-] H]]. eexists. split; [done|].
  unfold authEndpoint in *.
  destruct H as [H|[H|[H|H]]]; eauto 6 using occurs_in_context.
Qed.

Lemma isAuthEndpoint_anywhere_witness :
  isAuthEndpoint (Some ("https://api.example.com" +:+ "/auth/super-admin/mfa" +:+
                        "/backup-codes?fresh=1")) = true.
Proof. apply isAuthEndpoint_anywhere. reflexivity. Defined.

Section Promises.
Import Net.
Variable env : Env.

Lemma count_settlement_callbacks (i : nat) (st : State) (tok : option string)
      (qs : list Waiter) :
  count (is_settlement_of i) (map (runCallback env st tok) qs) = 0.
Proof. unfold count. induction qs as [|q qs IH]; simpl; done. Qed.

Lemma count_settlement_quiet (i : nat) (effs : list Effect) :
  quiet effs -> count (is_settlement_of i) effs = 0.
Proof. intros Hq. by apply count_quiet. Qed.

Lemma count_settlement_rejected (i id : nat) (e : Thrown) :
  count (is_settlement_of i) [Rejected id e] = if decide (i = id) then 1 else 0.
Proof.
  unfold count. simpl. destruct (Nat.eqb_spec id i); case_decide; done || congruence.
Qed.

(** A turn that settles nothing keeps the invariant, when it makes nothing
    pending but new promises. *)
Lemma Once_keep (w w' : World) :
  (forall i, count (is_settlement_of i) (trace w') = count (is_settlement_of i) (trace w)) ->
  (forall i, pending w' i -> pending w i \/ nextId w <= i) ->
  nextId w <= nextId w' ->
  Once w -> Once w'.
Proof.
  intros Hc Hp Hn O. split; intros i.
  - rewrite Hc. apply O.
  - intros H. rewrite Hc. destruct (Hp i H); [by apply once_pending | by apply once_future].
  - intros H. rewrite Hc. apply once_future; [done|lia].
Qed.

(** A turn that settles the pending promise [id], after which it is no
    longer pending. *)
Lemma Once_settle (w w' : World) (id : nat) :
  (forall i, count (is_settlement_of i) (trace w') =
             count (is_settlement_of i) (trace w) + if decide (i = id) then 1 else 0) ->
  pending w id -> id < nextId w ->
  (forall i, pending w' i -> pending w i /\ i <> id) ->
  nextId w' = nextId w ->
  Once w -> Once w'.
Proof.
  intros Hc Hid Hlt Hp Hn O. split; intros i.
  - rewrite Hc. case_decide as Hi.
    + subst i. rewrite (once_pending w O id Hid). lia.
    + pose proof (once_most w O i). lia.
  - intros H. destruct (Hp i H) as [H1 H2]. rewrite Hc, (once_pending w O i H1).
    by rewrite decide_False.
  - intros H. rewrite Hc, (once_future w O i) by lia.
    rewrite decide_False; [done|lia].
Qed.

Lemma Once_boot : Once boot.
Proof.
  split; intros i; intros; unfold count; simpl; lia.
Qed.

Lemma Once_step (w : World) (ev : Event) : Inv w -> Once w -> Once (step env w ev).
Proof.
  intros I O. destruct ev as [u m d h|id r|id tok|id f|token].
  - (* Call *)
    apply (Once_keep w); [| |simpl; lia|done].
    + intros i. simpl. rewrite count_app. unfold count at 2. simpl. lia.
    + intros i [[c Hc]|[Hq|(rid & orig & Hs)]].
      * simpl in Hc. destruct (decide (i = nextId w)) as [->|Hne]; [right; lia|].
        rewrite lookup_insert_ne in Hc by done. left. left. by exists c.
      * left. right. by left.
      * left. right. right. by exists rid, orig.
  - (* Succeeds *)
    unfold step.
    destruct (wire w !! id) as [c|] eqn:Hc; [|done].
    destruct (suspended w !! id) as [k|] eqn:Hs; [done|].
    destruct (inv_wire w I id c Hc) as [Hlt _].
    apply (Once_settle w _ id); [| |done| |done|done].
    + intros i. simpl. rewrite count_app. f_equal.
      unfold count. simpl. destruct (Nat.eqb_spec id i); case_decide; done || congruence.
    + left. by exists c.
    + intros i [[c' Hc']|[Hq|(rid & orig & Hs')]]; simpl in *.
      * apply lookup_delete_Some in Hc' as [Hne Hc']. split; [|done].
        left. by exists c'.
      * split; [right; by left|]. intros ->.
        apply elem_of_parked in Hq as [q [Hq Hr]].
        destruct (inv_queue w I) as [_ Hw]. destruct (Hw q Hq) as (_ & Hnone & _).
        rewrite Hr in Hnone. congruence.
      * split; [right; right; by exists rid, orig|]. intros ->.
        destruct (busy_inversion w rid id orig I Hs') as (_ & _ & _ & (_ & Hnone & _) & _).
        congruence.
  - (* RefreshSucceeds *)
    destruct (wire w !! id) as [c|] eqn:Hc; [|by unfold step; rewrite Hc].
    destruct (suspended w !! id) as [[caller orig]|] eqn:Hs; [|by unfold step; rewrite Hc, Hs].
    rewrite (step_RefreshSucceeds env w id tok c caller orig Hc Hs). cbv zeta.
    destruct (busy_inversion w id caller orig I Hs) as (Hb & Hsing & _ & _ & Hnp).
    apply (Once_keep w); [| |simpl; lia|done].
    + intros i. simpl. rewrite !count_app, count_settlement_callbacks.
      unfold count at 2. simpl. lia.
    + intros i [[c' Hc']|[Hq|(rid & orig' & Hs')]]; simpl in *.
      * left. destruct (decide (i = caller)) as [->|Hne].
        { right. right. by exists id, orig. }
        rewrite lookup_insert_ne in Hc' by done.
        destruct (decide (i ∈ parked w)) as [Hin|Hni]; [right; by left|].
        rewrite send_all_absent in Hc' by done.
        apply lookup_delete_Some in Hc' as [_ Hc']. left. by exists c'.
      * by apply elem_of_nil in Hq.
      * rewrite Hsing, delete_singleton_eq in Hs'. done.
  - (* Fails *)
    destruct (wire w !! id) as [c|] eqn:Hc; [|by unfold step; rewrite Hc].
    destruct (inv_wire w I id c Hc) as [Hlt _].
    destruct (classify f c) as [[e [He Hexp]]|Hne].
    + destruct (isRefreshing (client w)) eqn:Hb.
      * rewrite (step_Fails_parked env w id f c e Hc He Hexp Hb).
        apply (Once_keep w); [done| |simpl; lia|done].
        intros i [[c' Hc']|[Hq|(rid & orig' & Hs')]]; simpl in *; left.
        -- apply lookup_delete_Some in Hc' as [_ Hc']. left. by exists c'.
        -- unfold parked in Hq. simpl in Hq. rewrite map_app in Hq.
           apply elem_of_app in Hq as [Hq|Hq]; [right; by left|].
           apply list_elem_of_singleton in Hq as ->. left. by exists c.
        -- right. right. by exists rid, orig'.
      * rewrite (step_Fails_starts env w id f c e Hc He Hexp Hb). cbv zeta.
        destruct (inv_idle w I Hb) as [Hq0 Hs0].
        apply (Once_keep w); [| |simpl; lia|done].
        -- intros i. simpl. rewrite count_app. unfold count at 2. simpl. lia.
        -- intros i [[c' Hc']|[Hq|(rid & orig' & Hs')]]; simpl in *.
           ++ destruct (decide (i = nextId w)) as [->|Hni]; [right; lia|].
              rewrite lookup_insert_ne in Hc' by done.
              apply lookup_delete_Some in Hc' as [_ Hc']. left. left. by exists c'.
           ++ left. right. by left.
           ++ rewrite Hs0, insert_empty in Hs'.
              apply lookup_singleton_Some in Hs' as [_ [= <- _]].
              left. left. by exists c.
    + destruct (suspended w !! id) as [[caller orig]|] eqn:Hs.
      * destruct (step_Fails_refresh env w id f c caller orig Hc Hne Hs) as [effs [Hq ->]].
        destruct (busy_inversion w id caller orig I Hs)
          as (Hb & Hsing & _ & (Hclt & Hcnone & _) & Hnp).
        apply (Once_settle w _ caller); [| |done| |done|done].
        -- intros i. simpl. rewrite !count_app, (count_settlement_quiet i effs Hq).
           rewrite count_settlement_callbacks, count_settlement_rejected. lia.
        -- right. right. by exists id, orig.
        -- intros i [[c' Hc']|[Hq'|(rid & orig' & Hs')]]; simpl in *.
           ++ destruct (decide (i ∈ parked w)) as [Hin|Hni].
              { split; [right; by left|]. by intros ->. }
              rewrite send_all_absent in Hc' by done.
              apply lookup_delete_Some in Hc' as [_ Hc'].
              split; [left; by exists c'|]. intros ->. congruence.
           ++ by apply elem_of_nil in Hq'.
           ++ rewrite Hsing, delete_singleton_eq in Hs'. done.
      * destruct (step_Fails_rejected env w id f c Hc Hne Hs) as [effs [Hq ->]].
        apply (Once_settle w _ id); [| |done| |done|done].
        -- intros i. simpl. rewrite !count_app, (count_settlement_quiet i effs Hq).
           rewrite count_settlement_rejected. lia.
        -- left. by exists c.
        -- intros i [[c' Hc']|[Hq'|(rid & orig' & Hs')]]; simpl in *.
           ++ apply lookup_delete_Some in Hc' as [Hne' Hc']. split; [|done].
              left. by exists c'.
           ++ split; [right; by left|]. intros ->.
              apply elem_of_parked in Hq' as [q [Hq' Hr]].
              destruct (inv_queue w I) as [_ Hw]. destruct (Hw q Hq') as (_ & Hnone & _).
              rewrite Hr in Hnone. congruence.
           ++ split; [right; right; by exists rid, orig'|]. intros ->.
              destruct (busy_inversion w rid id orig' I Hs') as (_ & _ & _ & (_ & Hnone & _) & _).
              congruence.
  - (* SetToken *)
    apply (Once_keep w); [done| |simpl; lia|done]. intros i H. by left.
Qed.

Lemma Once_run (w : World) (evs : list Event) : Inv w -> Once w -> Once (run env w evs).
Proof.
  unfold run. revert w. induction evs as [|ev evs IH]; intros w I O; [done|].
  simpl. apply IH; [by apply Inv_step|by apply Once_step].
Qed.

End Promises.

(** X9. Every promise the client hands out is settled at most once:
    resolved or rejected, never both and never twice.  As long as a promise
    waits for something (its request is out, its closure is in the queue,
    or its handler is suspended at the refresh call) it is not settled, and
    a promise is settled only after its call was made. *)
Theorem promise_settles_at_most_once (env : Env) (evs : list Net.Event) :
  (forall id, Net.count (is_settlement_of id) (Net.trace (Net.run env Net.boot evs)) <= 1) /\
  (forall id, pending (Net.run env Net.boot evs) id ->
              Net.count (is_settlement_of id) (Net.trace (Net.run env Net.boot evs)) = 0) /\
  (forall id, Net.nextId (Net.run env Net.boot evs) <= id ->
              Net.count (is_settlement_of id) (Net.trace (Net.run env Net.boot evs)) = 0).
Proof.
  destruct (Once_run env Net.boot evs Inv_boot Once_boot) as [H1 H2 H3]. done.
Qed.

(** ** The device identity over time *)

(** X10. The device identity is fixed once it was read: after the first
    call of a process, the next call of the same process (the cache as the
    first call left it) and the first call of a later process (an empty
    cache, another generator, the same local storage and browser) give the
    same identifier and label and leave the same cache.  The identifier
    that was generated is the one that was stored. *)
Theorem device_identity_persists (b : Browser) (g : string) (c2 : Cache) :
  generateId b <> "" ->
  forall r c' b',
    getDeviceInfo (Some b) (mkCache None None) = (r, c', Some b') ->
    c2 = c' \/ c2 = mkCache None None ->
    getDeviceInfo (Some (mkBrowser (gm_device_id b') g (userAgent b'))) c2 =
    (r, c', Some (mkBrowser (gm_device_id b') g (userAgent b'))) /\
    gm_device_id b' = r.1.
Proof.
  intros Hg r c' b' H Hc2.
  destruct (getDeviceInfo_present b (mkCache None None) Hg) as [Hid Hlab].
  rewrite H in Hid, Hlab. unfold getDeviceInfo in H. simpl in H.
  destruct (present (gm_device_id b)) eqn:Hs; injection H as <- <- <-;
    simpl in *; (split; [|done]);
    destruct Hc2 as [-> | ->]; unfold getDeviceInfo; simpl;
    rewrite ?Hid, ?Hlab, ?Hs; done.
Qed.

Lemma device_identity_persists_witness :
  getDeviceInfo
    (Some (mkBrowser (Some "7f3a") "0000" (Some "Mozilla/5.0 (X11; Linux x86_64)")))
    (mkCache None None) =
  (Some "7f3a", Some "Linux desktop",
   mkCache (Some "7f3a") (Some "Linux desktop"),
   Some (mkBrowser (Some "7f3a") "0000" (Some "Mozilla/5.0 (X11; Linux x86_64)"))) /\
  Some "7f3a" = Some "7f3a".
Proof.
  apply (device_identity_persists
           (mkBrowser None "7f3a" (Some "Mozilla/5.0 (X11; Linux x86_64)"))
           "0000" (mkCache None None) ltac:(discriminate)
           (Some "7f3a", Some "Linux desktop")
           (mkCache (Some "7f3a") (Some "Linux desktop"))
           (mkBrowser (Some "7f3a") "7f3a" (Some "Mozilla/5.0 (X11; Linux x86_64)"))).
  - reflexivity.
  - by right.
Defined.

(** ** The store over time *)

Section StoreInvariant.
Import authStore AuthProvider.

Lemma exec_session (ws : list Write) (a : App) :
  Forall writes_session_together ws ->
  session_together (store a) -> session_together (store (exec ws a)).
Proof.
  unfold exec. intros Hws. revert a.
  induction Hws as [|w ws Hw Hws IH]; intros a Ha; [done|].
  simpl. apply IH. destruct w as [tok|p]; [done|].
  unfold session_together, set in *. simpl.
  destruct Hw as [(-> & -> & ->)|[(u & t & -> & -> & ->)|(-> & -> & ->)]]; simpl; try done.
Qed.

Lemma writes_session (o : Op) : Forall writes_session_together (writes o).
Proof.
  destruct o as [u t| |v|[|] [d|]]; cbn;
    repeat (apply Forall_cons; split); try apply Forall_nil; simpl;
    first [ done
          | left; done
          | right; left; eexists _, _; done
          | right; right; done ].
Qed.

Lemma history_session (env : Env) (hs : list Happening) (a : App) :
  session_together (store a) -> session_together (store (history env a hs)).
Proof.
  unfold history. revert a. induction hs as [|h hs IH]; intros a Ha; [done|].
  simpl. apply IH. destruct h as [o|ev]; simpl; [|done].
  apply exec_session; [apply writes_session|done].
Qed.

End StoreInvariant.

(** X11. The store holds a user exactly when it holds a token, and it
    holds neither before the first bootstrap is over: whatever actions ran
    and whatever the network did, [user] is null if and only if
    [accessToken] is null, and both are null while [hasBootstrapped] is
    false. *)
Theorem session_fields_move_together (env : Env) (hs : list AuthProvider.Happening) :
  (authStore.user (authStore.store (AuthProvider.history env authStore.start hs)) = None <->
   authStore.accessToken (authStore.store (AuthProvider.history env authStore.start hs)) = None) /\
  (authStore.hasBootstrapped (authStore.store (AuthProvider.history env authStore.start hs)) = false ->
   authStore.user (authStore.store (AuthProvider.history env authStore.start hs)) = None /\
   authStore.accessToken (authStore.store (AuthProvider.history env authStore.start hs)) = None).
Proof.
  destruct (history_session env hs authStore.start) as [H1 H2]; [done|].
  split; [done|]. intros Hb. split; [by apply H2|]. apply H1. by apply H2.
Qed.

(** X12. How the bootstrap leaves the store.  A run that is not cancelled
    ends with the loading flag down and [hasBootstrapped] up, store and
    token holder holding the same token: the user and token of the answer
    when the refresh succeeded, nothing when it failed.  A run that was
    cancelled writes nothing after its await: it leaves the loading flag up
    and every other field, and the token holder, as they were. *)
Theorem bootstrap_leaves_the_store (a : authStore.App) (r : AuthProvider.Settled) :
  authStore.store (authStore.exec (AuthProvider.bootstrap false r) a) =
    match r with
    | AuthProvider.Fulfilled d =>
        authStore.mkAuthState
          (Some (authStore.mkAuthUser (authStore.id (AuthProvider.user d))
                                      (authStore.email (AuthProvider.user d))
                                      (authStore.role (AuthProvider.user d))))
          (Some (AuthProvider.accessToken d)) false true
    | AuthProvider.Failed => authStore.mkAuthState None None false true
    end /\
  agree (authStore.exec (AuthProvider.bootstrap false r) a) /\
  authStore.store (authStore.exec (AuthProvider.bootstrap true r) a) =
    authStore.mkAuthState (authStore.user (authStore.store a))
                          (authStore.accessToken (authStore.store a))
                          true
                          (authStore.hasBootstrapped (authStore.store a)) /\
  authStore.http (authStore.exec (AuthProvider.bootstrap true r) a) = authStore.http a.
Proof.
  destruct r as [d|]; repeat split.
Qed.

(** ** The guard of the panel *)

Section Guard.
Import authStore Router GodLayout.


End Guard.


(** ** The side bar *)

Section SideBar.
Import GodLayout.

Lemma prefix_comparable (a b p : string) :
  String.prefix a p = true -> String.prefix b p = true ->
  String.prefix a b = true \/ String.prefix b a = true.
Proof.
  revert b p. induction a as [|x a IH]; intros b p Ha Hb; [left; by destruct b|].
  destruct b as [|y b]; [by right|].
  destruct p as [|z p]; [by simpl in Ha|].
  cbn [String.prefix] in *.
  destruct (Ascii.ascii_dec x z) as [->|]; [|done].
  destruct (Ascii.ascii_dec y z) as [->|]; [|done].
  destruct (Ascii.ascii_dec z z); [|done]. by eapply IH.
Qed.

(** Two entries that are active at the same place have the same href, or
    one of them, which is not the overview, begins the other. *)
Lemma isActive_both (pathname : option string) (h1 h2 : string) :
  isActive pathname h1 = true -> isActive pathname h2 = true ->
  String.eqb h1 h2 ||
  (String.prefix h1 h2 && negb (String.eqb h1 "/god")) ||
  (String.prefix h2 h1 && negb (String.eqb h2 "/god")) = true.
Proof.
  destruct pathname as [p|]; [|done]. unfold isActive.
  intros [H1|[H1 G1]%andb_true_iff]%orb_true_iff
         [H2|[H2 G2]%andb_true_iff]%orb_true_iff.
  - apply String.eqb_eq in H1, H2. subst. by rewrite String.eqb_refl.
  - apply String.eqb_eq in H1. subst p. rewrite H2, G2.
    by rewrite !orb_true_r.
  - apply String.eqb_eq in H2. subst p. rewrite H1, G1. simpl.
    by rewrite orb_true_r.
  - rewrite G1, G2, !andb_true_r.
    destruct (prefix_comparable h1 h2 p H1 H2) as [-> | ->];
      by rewrite ?orb_true_r.
Qed.

End SideBar.

(** X14. At no place is more than one entry of the side bar shown as
    active.  At its own address every entry is the active one; the
    overview is active only at its address itself, every other entry at
    every address that begins with its own. *)
Theorem at_most_one_active_item (pathname : option string) :
  length (GodLayout.activeItems pathname) <= 1 /\
  (forall item, item ∈ GodLayout.navItems ->
                GodLayout.activeItems (Some item.2) = [item]) /\
  (forall item rest, item ∈ GodLayout.navItems -> item.2 <> "/god" ->
                     GodLayout.isActive (Some (item.2 +:+ rest)) item.2 = true) /\
  (GodLayout.isActive pathname "/god" = true <-> pathname = Some "/god").
Proof.
  split; [|split; [|split]].
  - unfold GodLayout.activeItems, GodLayout.navItems. cbn [List.filter snd].
    repeat match goal with
           | |- context [GodLayout.isActive pathname ?h] =>
               let H := fresh "A" in
               destruct (GodLayout.isActive pathname h) eqn:H
           end; cbn [length]; try lia; exfalso;
    match goal with
    | H1 : GodLayout.isActive pathname ?h1 = true,
      H2 : GodLayout.isActive pathname ?h2 = true |- _ =>
        lazymatch h1 with
        | h2 => fail
        | _ => pose proof (isActive_both pathname h1 h2 H1 H2) as X;
               vm_compute in X; discriminate X
        end
    end.
  - intros item Hin. unfold GodLayout.navItems in Hin.
    repeat (apply elem_of_cons in Hin as [->|Hin]; [by vm_compute|]).
    by apply elem_of_nil in Hin.
  - intros item rest Hin Hne. unfold GodLayout.isActive.
    assert (String.prefix item.2 (item.2 +:+ rest) = true) as ->.
    { apply prefix_app. by exists rest. }
    apply String.eqb_neq in Hne as ->. by rewrite orb_true_r.
  - destruct pathname as [p|]; [|done]. unfold GodLayout.isActive.
    change (negb (String.eqb "/god" "/god")) with false.
    rewrite andb_false_r, orb_false_r, String.eqb_eq. split; congruence.
Qed.

(** ** Logging out *)

Section Logout.
Import Net authStore AuthProvider.
Variable env : Env.

Lemma reachable_step (w : World) (ev : Event) :
  reachable env w -> reachable env (step env w ev).
Proof.
  intros [evs ->]. exists (evs ++ [ev])%list. by rewrite run_app.
Qed.

Lemma reachable_onClient_token (w : World) (token : option string) :
  reachable env w -> reachable env (onClient (tokenBridge.setAccessToken token) w).
Proof. apply (reachable_step w (SetToken token)). Qed.

End Logout.

(** X15. However the logout call ends, the session is over afterwards:
    the store holds no user and no token, the token holder is empty, the
    layout shows the neutral screen and sends the visitor to the login
    page, as the button itself does, and the requests that leave from then
    on carry no bearer token of the client. *)
Theorem logout_ends_the_session (env : Env) (a : authStore.App) (c : Config) :
  authStore.store (authStore.exec LogoutButton.handleLogout_end.1.1 a) =
  authStore.mkAuthState None None false true /\
  authStore.bridgeToken (authStore.exec LogoutButton.handleLogout_end.1.1 a) = None /\
  LogoutButton.handleLogout_end.1.2 = [Router.Replace "/login"] /\
  GodLayout.effect (authStore.store (authStore.exec LogoutButton.handleLogout_end.1.1 a)) =
  [Router.Replace "/login"] /\
  GodLayout.render (authStore.store (authStore.exec LogoutButton.handleLogout_end.1.1 a)) =
  GodLayout.Checking /\
  header "Authorization"
         (api env (Net.client (authStore.http
                                 (authStore.exec LogoutButton.handleLogout_end.1.1 a))) c) =
  header "Authorization" c.
Proof.
  repeat split. unfold api.
  destruct (has_headers c) eqn:Hh.
  - by rewrite requestInterceptor_Authorization.
  - unfold header in *. unfold has_headers in Hh.
    pose proof (has_headers_requestInterceptor env
                  (tokenBridge.setAccessToken None (Net.client (authStore.http a))) c) as H.
    unfold has_headers in H.
    destruct (headers c); [done|].
    by destruct (headers (requestInterceptor env _ c)).
Qed.

(** X16. The address of the logout call is not among the authentication
    endpoints of the client: when the call is answered with 401 while no
    refresh is in flight, the client starts a refresh and holds the logout
    back for a replay instead of handing the error to the button. *)
Theorem expired_logout_starts_a_refresh (env : Env) (w : Net.World) (r : Response) :
  reachable env w ->
  isRefreshing (Net.client w) = false ->
  status r = 401%Z ->
  isRefreshing (Net.client (Net.run env w [LogoutButton.logoutRequest;
                                            Net.Fails (Net.nextId w) (Net.BadStatus r)])) = true /\
  Net.count Net.is_refresh
            (Net.trace (Net.run env w [LogoutButton.logoutRequest;
                                       Net.Fails (Net.nextId w) (Net.BadStatus r)])) =
  S (Net.count Net.is_refresh (Net.trace w)) /\
  (exists orig,
      Net.suspended (Net.run env w [LogoutButton.logoutRequest;
                                    Net.Fails (Net.nextId w) (Net.BadStatus r)])
      !! S (Net.nextId w) = Some (Net.nextId w, orig) /\
      url orig = Some "/auth/super-admin/logout" /\ _retry orig = true) /\
  Net.count (is_settlement_of (Net.nextId w))
            (Net.trace (Net.run env w [LogoutButton.logoutRequest;
                                       Net.Fails (Net.nextId w) (Net.BadStatus r)])) = 0.
Proof.
  intros Hw Hidle H401.
  pose proof (reachable_Inv env w Hw) as I.
  set (c := api env (Net.client w)
                (mkConfig (Some "/auth/super-admin/logout") "post" (JObject []) (Some ∅) false)).
  set (w1 := Net.step env w LogoutButton.logoutRequest).
  assert (Net.wire w1 !! Net.nextId w = Some c) as Hc.
  { subst w1 c. simpl. by rewrite lookup_insert_eq. }
  destruct (requestInterceptor_same_request env (Net.client w)
              (mkConfig (Some "/auth/super-admin/logout") "post" (JObject []) (Some ∅) false))
    as (Hu & _ & _ & Hr).
  fold (api env (Net.client w)
            (mkConfig (Some "/auth/super-admin/logout") "post" (JObject []) (Some ∅) false)) in Hu, Hr.
  fold c in Hu, Hr. simpl in Hu, Hr.
  assert (expired (mkAxiosError (Some r) c)) as Hexp.
  { split; [by exists r|]. simpl. split; [by rewrite Hu|done]. }
  assert (Net.run env w [LogoutButton.logoutRequest;
                         Net.Fails (Net.nextId w) (Net.BadStatus r)] =
          Net.step env w1 (Net.Fails (Net.nextId w) (Net.BadStatus r))) as -> by done.
  rewrite (step_Fails_starts env w1 (Net.nextId w) (Net.BadStatus r) c
             (mkAxiosError (Some r) c) Hc eq_refl Hexp Hidle).
  cbv zeta. cbn [Net.client Net.trace Net.suspended isRefreshing].
  split; [done|]. split; [|split].
  - subst w1. unfold LogoutButton.logoutRequest. cbn [Net.step Net.trace].
    rewrite !count_app. unfold Net.count. simpl. lia.
  - exists (set_retry c). subst w1. unfold LogoutButton.logoutRequest.
    cbn [Net.step Net.nextId].
    rewrite lookup_insert_eq. by rewrite <- Hu.
  - subst w1. unfold LogoutButton.logoutRequest. cbn [Net.step Net.trace].
    rewrite !count_app.
    destruct Hw as [evs ->].
    destruct (Once_run env Net.boot evs Inv_boot Once_boot) as [_ _ Hf].
    rewrite Hf by lia. unfold Net.count. simpl. done.
Qed.

Lemma expired_logout_starts_a_refresh_witness :
  isRefreshing
    (Net.client (Net.run Scenario.env Net.boot
                         [LogoutButton.logoutRequest;
                          Net.Fails 0 (Net.BadStatus Scenario.unauthorized)])) = true.
Proof.
  apply (expired_logout_starts_a_refresh Scenario.env Net.boot Scenario.unauthorized).
  - by exists [].
  - reflexivity.
  - reflexivity.
Defined.

(** X17. A refresh in flight outlives a logout.  When the user logs out
    while the client waits for a refresh call, the store is cleared, but
    the refresh goes on: if it succeeds, the token holder holds the new
    token again and the request that started the refresh is replayed,
    while the store holds no user and no token and the layout sends the
    visitor to the login page. *)
Theorem refresh_in_flight_outlives_logout
        (env : Env) (a : authStore.App) (rid caller : nat) (orig : Config) (T : string) :
  reachable env (authStore.http a) ->
  Net.suspended (authStore.http a) !! rid = Some (caller, orig) ->
  authStore.bridgeToken
    (AuthProvider.history env a [AuthProvider.StoreOp AuthProvider.ClearAuth;
                                 AuthProvider.Network (Net.RefreshSucceeds rid T)]) = Some T /\
  authStore.store
    (AuthProvider.history env a [AuthProvider.StoreOp AuthProvider.ClearAuth;
                                 AuthProvider.Network (Net.RefreshSucceeds rid T)]) =
  authStore.mkAuthState None None false true /\
  GodLayout.effect
    (authStore.store
       (AuthProvider.history env a [AuthProvider.StoreOp AuthProvider.ClearAuth;
                                    AuthProvider.Network (Net.RefreshSucceeds rid T)])) =
  [Router.Replace "/login"] /\
  Net.count (Net.is_replay_of caller)
    (Net.trace (authStore.http
       (AuthProvider.history env a [AuthProvider.StoreOp AuthProvider.ClearAuth;
                                    AuthProvider.Network (Net.RefreshSucceeds rid T)]))) = 1.
Proof.
  intros Hw Hs.
  set (w1 := Net.onClient (tokenBridge.setAccessToken None) (authStore.http a)).
  assert (reachable env w1) as Hw1 by by apply reachable_onClient_token.
  pose proof (reachable_Inv env w1 Hw1) as I.
  assert (Net.suspended w1 !! rid = Some (caller, orig)) as Hs1 by done.
  destruct (busy_inversion w1 rid caller orig I Hs1)
    as (_ & _ & (c & Hc & _) & (_ & _ & _ & _ & Hcount) & Hnp).
  assert (authStore.http
            (AuthProvider.history env a [AuthProvider.StoreOp AuthProvider.ClearAuth;
                                         AuthProvider.Network (Net.RefreshSucceeds rid T)]) =
          Net.step env w1 (Net.RefreshSucceeds rid T)) as Hhttp by done.
  unfold authStore.bridgeToken. rewrite Hhttp.
  rewrite (step_RefreshSucceeds env w1 rid T c caller orig Hc Hs1). cbv zeta.
  cbn [Net.client Net.trace tokenBridge.getAccessToken secureAxios.accessToken].
  repeat split.
  rewrite !count_app, Hcount, count_callbacks_absent by done.
  unfold Net.count. simpl. by rewrite Nat.eqb_refl.
Qed.

Lemma refresh_in_flight_outlives_logout_witness :
  authStore.bridgeToken
    (AuthProvider.history Scenario.env
       (authStore.mkApp (Net.run Scenario.env Scenario.w0 [fails Scenario.A])
                        (authStore.mkAuthState None None false true))
       [AuthProvider.StoreOp AuthProvider.ClearAuth;
        AuthProvider.Network (Net.RefreshSucceeds 3 "T2")]) = Some "T2".
Proof.
  apply (refresh_in_flight_outlives_logout Scenario.env
           (authStore.mkApp (Net.run Scenario.env Scenario.w0 [fails Scenario.A])
                            (authStore.mkAuthState None None false true))
           3 0 (set_retry (sent Scenario.A)) "T2").
  - exists (Scenario.calls ++ [fails Scenario.A])%list.
    unfold Scenario.w0. by rewrite run_app.
  - vm_compute. reflexivity.
Defined.

(** ** Logging in *)

(** X18. The login form authenticates on a success answer and on nothing
    else.  A success answer puts its user and token into the store and the
    token into the token holder, after which the layout shows the panel of
    that user without sending the visitor away, and asks the router for
    the panel.  An answer that asks for MFA, and any error, write nothing
    and go nowhere.  In every case the form is no longer submitting, the
    credentials typed are kept, and the form never goes back from the MFA
    phase to the password phase. *)
Theorem login_authenticates_only_on_success
        (f : LoginForm.Form) (r : LoginForm.Settled) (a : authStore.App) :
  LoginForm.isSubmitting (LoginForm.handleSubmit_end f r).1.1 = false /\
  LoginForm.email (LoginForm.handleSubmit_end f r).1.1 = LoginForm.email f /\
  LoginForm.password (LoginForm.handleSubmit_end f r).1.1 = LoginForm.password f /\
  (forall t u, r = LoginForm.Answered (LoginForm.LoginSuccess t u) ->
     authStore.store (authStore.exec (LoginForm.handleSubmit_end f r).1.2 a) =
     authStore.mkAuthState (Some u) (Some t) false true /\
     authStore.bridgeToken (authStore.exec (LoginForm.handleSubmit_end f r).1.2 a) = Some t /\
     GodLayout.render
       (authStore.store (authStore.exec (LoginForm.handleSubmit_end f r).1.2 a)) =
     GodLayout.Panel u /\
     GodLayout.effect
       (authStore.store (authStore.exec (LoginForm.handleSubmit_end f r).1.2 a)) = [] /\
     (LoginForm.handleSubmit_end f r).2 = [Router.Push "/god"]) /\
  ((forall t u, r <> LoginForm.Answered (LoginForm.LoginSuccess t u)) ->
     (LoginForm.handleSubmit_end f r).1.2 = [] /\
     (LoginForm.handleSubmit_end f r).2 = []) /\
  (LoginForm.phase (LoginForm.handleSubmit_end f r).1.1 = LoginForm.MFA <->
   LoginForm.phase f = LoginForm.MFA \/
   exists m, r = LoginForm.Answered (LoginForm.LoginMfaRequired m)).
Proof.
  split; [by destruct r as [[]|]|]. split; [by destruct r as [[]|]|].
  split; [by destruct r as [[]|]|]. split; [|split].
  - intros t u ->. cbn. unfold GodLayout.render, GodLayout.effect. cbn.
    by destruct (authStore.role u).
  - intros Hne. destruct r as [[t u|m]|err]; cbn; try done.
    by destruct (Hne t u).
  - destruct r as [[t u|m]|err]; cbn; split; eauto; try (by intros [?|[? ?]]).
Qed.

Section LoginRequest.
Import Net.
Variable env : Env.

Lemma onRejected_auth_401 (st : State) (caller : nat) (r : Response) (c : Config) :
  status r = 401%Z -> isAuthEndpoint (url c) = true ->
  onRejected env st caller (IsAxios (mkAxiosError (Some r) c)) =
  (st, [], Reject (IsAxios (mkAxiosError (Some r) c))).
Proof.
  intros H401 Ha. unfold onRejected. cbn [response config].
  by rewrite (status_401_not_stepUp r H401), H401, Ha.
Qed.

Lemma step_Call_wire (w : World) u m d h :
  wire (step env w (Call u m d h)) !! nextId w =
  Some (api env (client w) (mkConfig u m d (Some h) false)).
Proof. simpl. by rewrite lookup_insert_eq. Qed.

End LoginRequest.

(** X19. A login that the server refuses with 401 is shown to the user and
    never starts a refresh: whatever the client was doing, the error comes
    back to the form in the same turn, the module state and the number of
    refresh calls are as before, and the form shows the message for failed
    authentication. *)
Theorem refused_login_is_shown_not_refreshed
        (env : Env) (w : Net.World) (f : LoginForm.Form) (r : Response) :
  reachable env w ->
  status r = 401%Z ->
  exists err,
    Net.trace (Net.run env w [(LoginForm.handleSubmit_begin env f).2;
                              Net.Fails (Net.nextId w) (Net.BadStatus r)]) =
    (Net.trace (Net.step env w (LoginForm.handleSubmit_begin env f).2) ++
     [Rejected (Net.nextId w) err])%list /\
    Net.client (Net.run env w [(LoginForm.handleSubmit_begin env f).2;
                               Net.Fails (Net.nextId w) (Net.BadStatus r)]) = Net.client w /\
    Net.count Net.is_refresh
      (Net.trace (Net.run env w [(LoginForm.handleSubmit_begin env f).2;
                                 Net.Fails (Net.nextId w) (Net.BadStatus r)])) =
    Net.count Net.is_refresh (Net.trace w) /\
    LoginForm.error
      (LoginForm.handleSubmit_end (LoginForm.handleSubmit_begin env f).1
                                  (LoginForm.Threw err)).1.1 =
    JString "Authentication failed. Check your credentials or MFA code." /\
    (LoginForm.handleSubmit_end (LoginForm.handleSubmit_begin env f).1
                                (LoginForm.Threw err)).1.2 = [].
Proof.
  intros Hw H401.
  set (cfg := mkConfig (Some "/auth/super-admin/login") "post" (LoginForm.payload env f)
                       (Some ∅) false).
  set (c := api env (Net.client w) cfg).
  set (w1 := Net.step env w (LoginForm.handleSubmit_begin env f).2).
  pose proof (reachable_Inv env w1 (reachable_step env w _ Hw)) as I1.
  assert (Net.wire w1 !! Net.nextId w = Some c) as Hc by apply step_Call_wire.
  destruct (requestInterceptor_same_request env (Net.client w) cfg) as (Hu & _).
  assert (isAuthEndpoint (url c) = true) as Ha.
  { unfold c, api. by rewrite Hu. }
  assert (Net.suspended w1 !! Net.nextId w = None) as Hs.
  { destruct (Net.suspended w1 !! Net.nextId w) as [[caller orig]|] eqn:Hs; [|done].
    pose proof (reachable_Inv env w Hw) as I.
    destruct (busy_inversion w (Net.nextId w) caller orig I Hs) as (_ & _ & (c' & Hc' & _) & _).
    apply (inv_wire w I) in Hc' as [Hlt _]. lia. }
  assert (Net.step env w1 (Net.Fails (Net.nextId w) (Net.BadStatus r)) =
          Net.mkWorld (Net.client w1) (Net.nextId w1) (delete (Net.nextId w) (Net.wire w1))
                      (Net.suspended w1)
                      (Net.trace w1 ++ [Rejected (Net.nextId w) (Net.thrown (Net.BadStatus r) c)]))
    as Hstep.
  { unfold Net.step. rewrite Hc. cbn [Net.thrown].
    rewrite (onRejected_auth_401 env _ _ r c H401 Ha), Hs. done. }
  exists (Net.thrown (Net.BadStatus r) c).
  assert (Net.run env w [(LoginForm.handleSubmit_begin env f).2;
                         Net.Fails (Net.nextId w) (Net.BadStatus r)] =
          Net.step env w1 (Net.Fails (Net.nextId w) (Net.BadStatus r))) as -> by done.
  rewrite Hstep. cbn [Net.trace Net.client app].
  split; [done|]. split; [done|]. split.
  - subst w1. unfold LoginForm.handleSubmit_begin. cbn [snd Net.step Net.trace].
    rewrite !count_app. unfold Net.count. simpl. lia.
  - cbn. by rewrite H401.
Qed.

Lemma refused_login_is_shown_not_refreshed_witness :
  exists err,
    Net.trace (Net.run Scenario.env Net.boot
                 [(LoginForm.handleSubmit_begin Scenario.env
                     (LoginForm.mkForm "root@example.com" "hunter2" "" ""
                                       LoginForm.PASSWORD false JNull None)).2;
                  Net.Fails (Net.nextId Net.boot) (Net.BadStatus Scenario.unauthorized)]) =
    (Net.trace (Net.step Scenario.env Net.boot
                  (LoginForm.handleSubmit_begin Scenario.env
                     (LoginForm.mkForm "root@example.com" "hunter2" "" ""
                                       LoginForm.PASSWORD false JNull None)).2) ++
     [Rejected (Net.nextId Net.boot) err])%list /\
    Net.client (Net.run Scenario.env Net.boot
                  [(LoginForm.handleSubmit_begin Scenario.env
                      (LoginForm.mkForm "root@example.com" "hunter2" "" ""
                                        LoginForm.PASSWORD false JNull None)).2;
                   Net.Fails (Net.nextId Net.boot) (Net.BadStatus Scenario.unauthorized)]) =
    Net.client Net.boot /\
    Net.count Net.is_refresh
      (Net.trace (Net.run Scenario.env Net.boot
                    [(LoginForm.handleSubmit_begin Scenario.env
                        (LoginForm.mkForm "root@example.com" "hunter2" "" ""
                                          LoginForm.PASSWORD false JNull None)).2;
                     Net.Fails (Net.nextId Net.boot) (Net.BadStatus Scenario.unauthorized)])) =
    Net.count Net.is_refresh (Net.trace Net.boot) /\
    LoginForm.error
      (LoginForm.handleSubmit_end
         (LoginForm.handleSubmit_begin Scenario.env
            (LoginForm.mkForm "root@example.com" "hunter2" "" ""
                              LoginForm.PASSWORD false JNull None)).1
         (LoginForm.Threw err)).1.1 =
    JString "Authentication failed. Check your credentials or MFA code." /\
    (LoginForm.handleSubmit_end
       (LoginForm.handleSubmit_begin Scenario.env
          (LoginForm.mkForm "root@example.com" "hunter2" "" ""
                            LoginForm.PASSWORD false JNull None)).1
       (LoginForm.Threw err)).1.2 = [].
Proof.
  apply (refused_login_is_shown_not_refreshed Scenario.env Net.boot).
  - by exists [].
  - reflexivity.
Defined.

(** ** The request decorator in a run *)

Section EveryRequest.
Import Net.
Variable env : Env.

Lemma sent_with_api (st : State) (c0 : Config) :
  has_headers c0 = true -> sent_with env (secureAxios.accessToken st) (api env st c0).
Proof. intros Hh. by exists st, c0. Qed.

Lemma sent_with_has_headers (tok : option string) (c : Config) :
  sent_with env tok c -> has_headers c = true.
Proof. intros (st & c0 & Hh & _ & ->). by rewrite has_headers_requestInterceptor. Qed.

Lemma sent_with_Authorization (tok : option string) (c : Config) (t : string) :
  sent_with env tok c -> tok = Some t -> t <> "" ->
  header "Authorization" c = Some ("Bearer " +:+ t).
Proof.
  intros (st & c0 & Hh & Ht & ->) -> Hne.
  rewrite requestInterceptor_Authorization by done. rewrite Ht. simpl.
  by apply String.eqb_neq in Hne as ->.
Qed.

Lemma sent_with_device (tok : option string) (c : Config) (d : string) :
  sent_with env tok c -> window env = true -> deviceId env = Some d -> d <> "" ->
  header "x-device-id" c = Some d /\
  forall l, deviceLabel env = Some l -> l <> "" -> header "x-device-label" c = Some l.
Proof.
  intros (st & c0 & Hh & _ & ->) Hw Hd Hne.
  assert (present (deviceId env) = true) as Hp.
  { rewrite Hd. simpl. by apply String.eqb_neq in Hne as ->. }
  split.
  - rewrite requestInterceptor_device_id by done. by rewrite Hw, Hp, Hd.
  - intros l Hl Hnl. rewrite requestInterceptor_device_label by done.
    rewrite Hw, Hp, Hl. simpl. by apply String.eqb_neq in Hnl as ->.
Qed.

Lemma sent_with_callbacks (st : State) (tok : option string) (qs : list Waiter)
      (e : Effect) (c : Config) :
  Forall (fun q => has_headers (originalRequest q) = true) qs ->
  e ∈ map (runCallback env st tok) qs -> leaves e = Some c ->
  sent_with env (secureAxios.accessToken st) c.
Proof.
  intros Hqs [q [-> Hq]]%list_elem_of_fmap [= <-].
  rewrite Forall_forall in Hqs. apply sent_with_api.
  case_match; [by rewrite has_headers_set_header; apply Hqs|by apply Hqs].
Qed.

Lemma queue_has_headers (w : World) :
  Inv w -> Forall (fun q => has_headers (originalRequest q) = true) (refreshQueue (client w)).
Proof.
  intros I. apply Forall_forall. intros q Hq.
  by destruct (proj2 (inv_queue w I) q Hq) as (_ & _ & _ & ? & _).
Qed.

Lemma quiet_sends_nothing (effs : list Effect) (e : Effect) :
  quiet effs -> e ∈ effs -> leaves e = None.
Proof.
  intros [->| ->] He; [by apply elem_of_nil in He|].
  by apply list_elem_of_singleton in He as ->.
Qed.

(** Every request a turn sends left through the interceptor under the
    token the holder has when the turn ends: a handler writes the token
    before it sends. *)
Lemma sent_with_step (w : World) (ev : Event) :
  Inv w ->
  exists new,
    trace (step env w ev) = (trace w ++ new)%list /\
    forall e c, e ∈ new -> leaves e = Some c ->
                sent_with env (secureAxios.accessToken (client (step env w ev))) c.
Proof.
  intros I. destruct ev as [u m d h|id r|id tok|id f|token].
  - eexists. split; [reflexivity|]. intros e c He Hc.
    apply list_elem_of_singleton in He as ->. injection Hc as <-.
    by apply sent_with_api.
  - unfold step. destruct (wire w !! id) as [c0|]; [|by exists []; rewrite app_nil_r; split; [|intros ? ? []%elem_of_nil]].
    destruct (suspended w !! id) as [k|]; [by exists []; rewrite app_nil_r; split; [|intros ? ? []%elem_of_nil]|].
    eexists. split; [reflexivity|]. intros e c He Hc.
    by apply list_elem_of_singleton in He as ->.
  - destruct (wire w !! id) as [c0|] eqn:Hc0;
      [|unfold step; rewrite Hc0; by exists []; rewrite app_nil_r; split; [|intros ? ? []%elem_of_nil]].
    destruct (suspended w !! id) as [[caller orig]|] eqn:Hs;
      [|unfold step; rewrite Hc0, Hs; by exists []; rewrite app_nil_r; split; [|intros ? ? []%elem_of_nil]].
    rewrite (step_RefreshSucceeds env w id tok c0 caller orig Hc0 Hs). cbv zeta.
    cbn [trace client secureAxios.accessToken].
    destruct (busy_inversion w id caller orig I Hs) as (_ & _ & _ & (_ & _ & _ & Hh & _) & _).
    eexists. split; [reflexivity|]. intros e c He Hc.
    apply elem_of_app in He as [He|He].
    + apply (sent_with_callbacks (tokenBridge.setAccessToken (Some tok) (client w))
                                 (Some tok) (refreshQueue (client w)) e c);
        [by apply queue_has_headers|done|done].
    + apply list_elem_of_singleton in He as ->. injection Hc as <-.
      apply (sent_with_api (mkState (Some tok) false [])).
      by rewrite has_headers_set_header.
  - destruct (wire w !! id) as [c0|] eqn:Hc0;
      [|unfold step; rewrite Hc0; by exists []; rewrite app_nil_r; split; [|intros ? ? []%elem_of_nil]].
    destruct (classify f c0) as [[e0 [He0 Hexp]]|Hne].
    + destruct (isRefreshing (client w)) eqn:Hb.
      * rewrite (step_Fails_parked env w id f c0 e0 Hc0 He0 Hexp Hb).
        exists []. rewrite app_nil_r. split; [done|]. by intros ? ? []%elem_of_nil.
      * rewrite (step_Fails_starts env w id f c0 e0 Hc0 He0 Hexp Hb). cbv zeta.
        cbn [trace client secureAxios.accessToken].
        eexists. split; [reflexivity|]. intros e c He Hc.
        apply list_elem_of_singleton in He as ->. injection Hc as <-.
        by apply (sent_with_api (mkState (secureAxios.accessToken (client w)) true
                                         (refreshQueue (client w)))).
    + destruct (suspended w !! id) as [[caller orig]|] eqn:Hs.
      * destruct (step_Fails_refresh env w id f c0 caller orig Hc0 Hne Hs) as [effs [Hq ->]].
        cbn [trace client secureAxios.accessToken].
        eexists. split; [reflexivity|]. intros e c He Hc.
        apply elem_of_app in He as [He|He].
        { rewrite (quiet_sends_nothing effs e Hq He) in Hc. done. }
        apply elem_of_app in He as [He|He].
        -- apply (sent_with_callbacks (tokenBridge.setAccessToken None (client w))
                                      None (refreshQueue (client w)) e c);
             [by apply queue_has_headers|done|done].
        -- by apply list_elem_of_singleton in He as ->.
      * destruct (step_Fails_rejected env w id f c0 Hc0 Hne Hs) as [effs [Hq ->]].
        cbn [trace].
        eexists. split; [reflexivity|]. intros e c He Hc.
        apply elem_of_app in He as [He|He].
        { rewrite (quiet_sends_nothing effs e Hq He) in Hc. done. }
        by apply list_elem_of_singleton in He as ->.
  - exists []. simpl. rewrite app_nil_r. split; [done|]. by intros ? ? []%elem_of_nil.
Qed.

End EveryRequest.

(** X20. Every request that leaves, whether a screen issued it, the
    coordinator sent it as its refresh call or replayed it, has passed the
    request interceptor, which read the token the holder has in that turn.
    So, in any turn from any state the client can reach: when the holder
    holds a token [t] (not the empty string), every request the turn sends
    carries [Authorization: Bearer t], whatever it carried before; the
    requests sent after a successful refresh carry the new token.  In a
    window with a device identifier, every request carries it, and the
    device label when there is one.  When no token is held, the interceptor
    leaves [Authorization] as it found it. *)
Theorem every_request_carries_the_held_token
        (env : Env) (w : Net.World) (ev : Net.Event) :
  reachable env w ->
  exists new,
    Net.trace (Net.step env w ev) = (Net.trace w ++ new)%list /\
    (forall e c, e ∈ new -> leaves e = Some c ->
       sent_with env (secureAxios.accessToken (Net.client (Net.step env w ev))) c /\
       has_headers c = true /\
       (forall t, secureAxios.accessToken (Net.client (Net.step env w ev)) = Some t ->
                  t <> "" -> header "Authorization" c = Some ("Bearer " +:+ t)) /\
       (forall d, window env = true -> deviceId env = Some d -> d <> "" ->
          header "x-device-id" c = Some d /\
          forall l, deviceLabel env = Some l -> l <> "" ->
                    header "x-device-label" c = Some l)) /\
    (forall T id, ev = Net.RefreshSucceeds id T -> T <> "" ->
       forall e c, e ∈ new -> leaves e = Some c ->
                   header "Authorization" c = Some ("Bearer " +:+ T)) /\
    (forall st c0, has_headers c0 = true ->
       secureAxios.accessToken st = None \/ secureAxios.accessToken st = Some "" ->
       header "Authorization" (requestInterceptor env st c0) = header "Authorization" c0).
Proof.
  intros Hw. pose proof (reachable_Inv env w Hw) as I.
  destruct (sent_with_step env w ev I) as (new & Htr & Hnew).
  exists new. split; [done|]. split; [|split].
  - intros e c He Hc. specialize (Hnew e c He Hc).
    split; [done|]. split; [by eapply sent_with_has_headers|].
    split; [intros t Ht Hne; by eapply sent_with_Authorization|].
    intros d Hwin Hd Hne. by eapply sent_with_device.
  - intros T id -> HT e c He Hc. specialize (Hnew e c He Hc).
    assert (secureAxios.accessToken (Net.client (Net.step env w (Net.RefreshSucceeds id T))) =
            Some T) as Htok.
    { destruct (Net.wire w !! id) as [c0|] eqn:Hc0.
      2: { unfold Net.step in Htr. rewrite Hc0 in Htr.
           apply (f_equal length) in Htr. rewrite length_app in Htr.
           destruct new; [by apply elem_of_nil in He|simpl in Htr; lia]. }
      destruct (Net.suspended w !! id) as [[caller orig]|] eqn:Hs.
      2: { unfold Net.step in Htr. rewrite Hc0, Hs in Htr.
           apply (f_equal length) in Htr. rewrite length_app in Htr.
           destruct new; [by apply elem_of_nil in He|simpl in Htr; lia]. }
      by rewrite (step_RefreshSucceeds env w id T c0 caller orig Hc0 Hs). }
    by eapply sent_with_Authorization.
  - intros st c0 Hh Hno. rewrite requestInterceptor_Authorization by done.
    by destruct Hno as [-> | ->].
Qed.

Lemma every_request_carries_the_held_token_witness :
  exists new,
    Net.trace (Net.step Scenario.env Scenario.w0 (fails Scenario.A)) =
    (Net.trace Scenario.w0 ++ new)%list /\
    forall e c, e ∈ new -> leaves e = Some c ->
                header "Authorization" c = Some "Bearer T1".
Proof.
  destruct (every_request_carries_the_held_token
              Scenario.env Scenario.w0 (fails Scenario.A)) as (new & Htr & Hnew & _).
  - exists Scenario.calls. reflexivity.
  - exists new. split; [exact Htr|].
    intros e c He Hc. destruct (Hnew e c He Hc) as (_ & _ & Ht & _).
    apply (Ht "T1"); [reflexivity|discriminate].
Defined.
